(** * dependency-watchdog: scaler, retry helpers, pod watcher and validator

    A shallow embedding of
      - internal/util     (Retry, RetryUntilPredicate, RetryOnError, AlwaysRetry),
      - internal/prober   (scaler.go, validator.go),
      - internal/weeder   (the pod watcher),
    the properties of the specification that concern them, and further
    properties that the code shows.

    Go code that talks to the outside world (the context, timers, the logger,
    the API server) is embedded as a program over a signature of events; a
    handler interprets the events in a state and the run records every call
    together with its answer. *)

From stdpp Require Import base option list strings gmap sorting pretty.
From Stdlib Require Import ZArith Lia.

Local Open Scope string_scope.
Local Open Scope list_scope.
Local Open Scope Z_scope.

(** ** Programs over a signature of events *)

Module Lang.

(** A Go function body that performs external calls.  [Panic] is a run-time
    panic (nil dereference, call of a nil func); [Spin] stands for a
    [for { }] loop that has not exited within the iteration budget given to
    its embedding. *)
Inductive Prog (E : Type -> Type) (A : Type) : Type :=
  | Ret (a : A)
  | Panic (msg : string)
  | Spin
  | Vis {X : Type} (e : E X) (k : X -> Prog E A).

Arguments Ret {E A} a.
Arguments Panic {E A} msg.
Arguments Spin {E A}.
Arguments Vis {E A X} e k.

Fixpoint bind {E A B} (p : Prog E A) (f : A -> Prog E B) : Prog E B :=
    match p with
    | Ret a => f a
    | Panic msg => Panic msg
    | Spin => Spin
    | Vis e k => Vis e (fun x => bind (k x) f)
    end.

Definition call {E X} (e : E X) : Prog E X := Vis e Ret.

(** One external call with the answer it received. *)
Inductive Call (E : Type -> Type) : Type :=
  | mkCall {X : Type} (e : E X) (x : X).
Arguments mkCall {E X} e x.

(** How a run ends. *)
Inductive Res (A : Type) : Type :=
  | Returned (a : A)
  | Panicked (msg : string)
  | OutOfFuel.
Arguments Returned {A} a.
Arguments Panicked {A} msg.
Arguments OutOfFuel {A}.

Definition Handler (E : Type -> Type) (S : Type) : Type :=
    forall X, E X -> S -> X * S.

(** [run h p s]: the result, the final state and the calls made, in order. *)
Fixpoint run {E S A} (h : Handler E S) (p : Prog E A) (s : S)
    : Res A * S * list (Call E) :=
    match p with
    | Ret a => (Returned a, s, [])
    | Panic msg => (Panicked msg, s, [])
    | Spin => (OutOfFuel, s, [])
    | Vis e k =>
        let '(x, s1) := h _ e s in
        let '(r, s2, tr) := run h (k x) s1 in
        (r, s2, mkCall e x :: tr)
    end.

Definition result {E S A} (h : Handler E S) (p : Prog E A) (s : S) : Res A :=
    (run h p s).1.1.
Definition final {E S A} (h : Handler E S) (p : Prog E A) (s : S) : S :=
    (run h p s).1.2.
Definition trace {E S A} (h : Handler E S) (p : Prog E A) (s : S) : list (Call E) :=
    (run h p s).2.

(** Disjoint union of two signatures. *)
Inductive sumE (E F : Type -> Type) (X : Type) : Type :=
  | inlE (e : E X)
  | inrE (f : F X).
Arguments inlE {E F X} e.
Arguments inrE {E F X} f.

Definition sumH {E F S} (h : Handler E S) (g : Handler F S) : Handler (sumE E F) S :=
    fun X e => match e with inlE e => h X e | inrE f => g X f end.

Declare Scope prog_scope.
Delimit Scope prog_scope with prog.
Notation "x <- p ;; q" := (bind p (fun x => q))
    (at level 100, p at next level, right associativity) : prog_scope.
Notation "p ;;; q" := (bind p (fun _ => q))
    (at level 100, right associativity) : prog_scope.

End Lang.

Import Lang.
Local Open Scope prog_scope.

(** ** Go's [error], [time.Duration], the context, timers and the logger *)

(** [time.Duration]: an int64 count of nanoseconds. *)
Definition Duration : Type := Z.
Definition Millisecond : Duration := 1000000.

(** The error values that flow through the embedded code. *)
Inductive error : Type :=
| ContextCanceled                 (* context.Canceled *)
| ContextDeadlineExceeded         (* context.DeadlineExceeded *)
| StatusNotFound (name : string)  (* an API status error for which apierrors.IsNotFound holds *)
| StatusError (reason : string)   (* any other API error *)
| Errorf (msg : string).          (* fmt.Errorf *)

Definition IsNotFound (e : error) : bool :=
  match e with StatusNotFound _ => true | _ => false end.

(** Calls on the context, the timers and the package logger.
    - [CtxDone] is the non-blocking
        [select { case <-ctx.Done(): ...; default: }];
      its answer is [Some (ctx.Err())] when the context is done;
    - [AfterOrDone d] is the blocking
        [select { case <-ctx.Done(): ...; case <-time.After(d): ... }];
      its answer is [Some (ctx.Err())] when the context wins, [None] when the
      timer fires;
    - [TimeSleep d] is [time.Sleep(d)]. *)
Inductive rtE : Type -> Type :=
| CtxDone : rtE (option error)
| AfterOrDone (d : Duration) : rtE (option error)
| TimeSleep (d : Duration) : rtE unit
| LogError (err : error) (msg : string) : rtE unit
| LogInfo (v : Z) (msg : string) : rtE unit.

Class HasRt (E : Type -> Type) : Type := rt : forall X, rtE X -> E X.
Arguments rt {E _ X} e.

Global Instance HasRt_self : HasRt rtE := fun _ e => e.
Global Instance HasRt_suml {F} : HasRt (sumE rtE F) := fun _ e => inlE e.

(** A [*time.Timer]. *)
Definition Timer : Type := Z.

(** What the three-way [select] of [RetryUntilPredicate] takes: the context's
    case, the timer's case, or the default. *)
Inductive polled : Type :=
| PollDone
| PollTimer
| PollDefault.

(** Calls on timers:
    - [NewTimer d] is [time.NewTimer(d)];
    - [PollDoneOrTimer t] is the non-blocking
        [select { case <-ctx.Done(): ...; case <-t.C: ...; default: ... }]. *)
Inductive timerE : Type -> Type :=
| NewTimer (d : Duration) : timerE Timer
| PollDoneOrTimer (t : Timer) : timerE polled.

Class HasTimer (E : Type -> Type) : Type := tm : forall X, timerE X -> E X.
Arguments tm {E _ X} e.
Global Instance HasTimer_sum {F} : HasTimer (sumE rtE (sumE timerE F)) :=
  fun _ e => inrE (inlE e).

(** ** package util *)

Module util.

Section retry.
Context {E : Type -> Type} `{!HasRt E} {T : Type}.
(** The zero value of [T] ([var result T]). *)
Variable zeroT : T.

Record RetryResult : Type := mkRetryResult { Value : T; Err : option error }.

(** The body of [for i := 1; i <= numAttempts; i++] in [Retry];
    [remaining] counts the iterations still to run, [result] and [err]
    are the function's locals. *)
Fixpoint retryLoop (operation : string) (fn : Prog E (T * option error))
        (backOff : Duration) (canRetry : error -> bool)
        (remaining : nat) (i : Z) (result : T) (err : option error)
      : Prog E RetryResult :=
      match remaining with
      | O => Ret (mkRetryResult result err)
      | S remaining' =>
          done <- call (rt CtxDone) ;;
          match done with
          | Some cerr =>
              call (rt (LogError cerr "context has been cancelled, stopping retry")) ;;;
              Ret (mkRetryResult zeroT (Some cerr))
          | None =>
              r <- fn ;;
              let result := r.1 in
              let err := r.2 in
              match err with
              | None => Ret (mkRetryResult result err)
              | Some e =>
                  if negb (canRetry e) then
                    call (rt (LogError e "exiting retry as canRetry has returned false")) ;;;
                    Ret (mkRetryResult zeroT (Some e))
                  else
                    sel <- call (rt (AfterOrDone backOff)) ;;
                    match sel with
                    | Some cerr =>
                        call (rt (LogError cerr "context has been cancelled, stopping retry")) ;;;
                        Ret (mkRetryResult zeroT (Some cerr))
                    | None =>
                        call (rt (LogInfo 4 "will attempt to retry operation")) ;;;
                        retryLoop operation fn backOff canRetry remaining' (i + 1) result err
                    end
              end
          end
      end.

(** [Retry]: [i] runs from 1 to [numAttempts], so the loop body is entered
    [max 0 numAttempts] times at most. *)
Definition Retry (operation : string) (fn : Prog E (T * option error))
        (numAttempts : Z) (backOff : Duration) (canRetry : error -> bool)
      : Prog E RetryResult :=
      retryLoop operation fn backOff canRetry (Z.to_nat numAttempts) 1 zeroT None.
End retry.

Arguments RetryResult T : clear implicits.
Arguments mkRetryResult {T} _ _.
Arguments Value {T} _.
Arguments Err {T} _.

Section retryOnError.
Context {E : Type -> Type} `{!HasRt E} {St : Type}.

(** RetryOnError retries invoking a function till either the invocation of
    the function does not return an error or the context has timed-out or has
    been cancelled.  It is a [for { }] loop; [fuel] bounds its iterations.
    [st] holds the variables that the func passed as [retriableFn] captures
    and assigns; the call returns their final values. *)
Fixpoint RetryOnError (fuel : nat) (operation : string)
    (retriableFn : St -> Prog E (option error * St)) (interval : Duration)
    (st : St) : Prog E St :=
  match fuel with
  | O => Spin
  | S fuel' =>
      done <- call (rt CtxDone) ;;
      match done with
      | Some _ =>
          call (rt (LogInfo 4 "context has either timed-out or has been cancelled")) ;;;
          Ret st
      | None =>
          r <- retriableFn st ;;
          let err := r.1 in
          let st := r.2 in
          match err with
          | Some e =>
              call (rt (LogError e
                "Error encountered during retry. Will re-attempt if possible.")) ;;;
              call (rt (TimeSleep interval)) ;;;
              RetryOnError fuel' operation retriableFn interval st
          | None => Ret st
          end
      end
  end.
End retryOnError.

Definition AlwaysRetry (err : error) : bool := true.

Section retryUntilPredicate.
Context {E : Type -> Type} `{!HasRt E} `{!HasTimer E}.

(** The [for { select { ... } }] of [RetryUntilPredicate]; [fuel] bounds its
    iterations. *)
Fixpoint retryUntilPredicateLoop (fuel : nat) (operation : string)
    (predicateFn : Prog E bool) (interval : Duration) (timer : Timer) : Prog E bool :=
  match fuel with
  | O => Spin
  | S fuel' =>
      sel <- call (tm (PollDoneOrTimer timer)) ;;
      match sel with
      | PollDone =>
          call (rt (LogInfo 4 "context has been cancelled, exiting retrying operation")) ;;;
          Ret false
      | PollTimer =>
          call (rt (LogInfo 4 "timed out waiting for predicateFn to be true")) ;;;
          Ret false
      | PollDefault =>
          b <- predicateFn ;;
          if b then Ret true
          else
            call (rt (TimeSleep interval)) ;;;
            retryUntilPredicateLoop fuel' operation predicateFn interval timer
      end
  end.

Definition RetryUntilPredicate (fuel : nat) (operation : string)
    (predicateFn : Prog E bool) (timeout interval : Duration) : Prog E bool :=
  timer <- call (tm (NewTimer timeout)) ;;
  retryUntilPredicateLoop fuel operation predicateFn interval timer.
End retryUntilPredicate.

End util.


(** Helpers of package util whose source is not part of the files embedded
    here; the scaler calls them. *)

(** Modelled from the spec: [util.SleepWithContext] is missing from the
    sources at hand; the scale action's step 2 reads
    "Sleep r.initialDelay or abort on cancellation", that is, a wait that ends
    with the context's error when the context is done first. *)
Definition SleepWithContext {E} `{!HasRt E} (sleepFor : Duration) : Prog E (option error) :=
  call (rt (AfterOrDone sleepFor)).

(** Modelled from the spec: [util.ScaleUpReplicasMismatch] is missing from the
    sources at hand; "Scale-up uses current < target". *)
Definition ScaleUpReplicasMismatch (replicas targetReplicas : Z) : bool :=
  replicas <? targetReplicas.

(** Modelled from the spec: [util.ScaleDownReplicasMismatch] is missing from
    the sources at hand; "scale-down uses current > target". *)
Definition ScaleDownReplicasMismatch (replicas targetReplicas : Z) : bool :=
  replicas >? targetReplicas.

(** ** The Kubernetes types the scaler handles *)

Module autoscalingv1.
Record CrossVersionObjectReference : Type :=
  { Kind : string; Name : string; APIVersion : string }.

(** The scale subresource. *)
Record Scale : Type :=
  { ScaleName : string; SpecReplicas : Z; StatusReplicas : Z }.
End autoscalingv1.

Module appsv1.
(** [Spec.Replicas] is a [*int32]; [Status.Replicas] an [int32]. *)
Record Deployment : Type :=
  { Name : string;
    Annotations : gmap string string;
    SpecReplicas : option Z;
    StatusReplicas : Z }.
End appsv1.

Module schema.
Record GroupVersion : Type := { gvGroup : string; gvVersion : string }.
Record GroupKind : Type := { gkGroup : string; gkKind : string }.
Record GroupResource : Type := { grGroup : string; grResource : string }.
Record GroupVersionResource : Type :=
  { gvrGroup : string; gvrVersion : string; gvrResource : string }.

Definition toGroupResource (gvr : GroupVersionResource) : GroupResource :=
  {| grGroup := gvrGroup gvr; grResource := gvrResource gvr |}.

Definition slash : Ascii.ascii := Ascii.ascii_of_nat 47.

Fixpoint countSlash (s : string) : nat :=
  match s with
  | EmptyString => O
  | String c rest => (if Ascii.eqb c slash then 1 else 0)%nat + countSlash rest
  end.

(** [s[:i]] and [s[i+1:]] for [i] the index of the first ["/"]. *)
Fixpoint cutAtSlash (s : string) : string * string :=
  match s with
  | EmptyString => (EmptyString, EmptyString)
  | String c rest =>
      if Ascii.eqb c slash then (EmptyString, rest)
      else let '(a, b) := cutAtSlash rest in (String c a, b)
  end.

(** [schema.ParseGroupVersion] of k8s.io/apimachinery. *)
Definition ParseGroupVersion (gv : string) : GroupVersion * option error :=
  if (String.eqb gv EmptyString || String.eqb gv "/")%bool
  then ({| gvGroup := EmptyString; gvVersion := EmptyString |}, None)
  else match countSlash gv with
       | O => ({| gvGroup := EmptyString; gvVersion := gv |}, None)
       | S O => let '(g, v) := cutAtSlash gv in
                ({| gvGroup := g; gvVersion := v |}, None)
       | _ => ({| gvGroup := EmptyString; gvVersion := EmptyString |},
               Some (Errorf ("unexpected GroupVersion string: " +:+ gv)))
       end.
End schema.

(** Calls on the API server made by the scaler: the controller-runtime client
    (reads of Deployments, the REST mapper) and the scale client of the
    scaler's namespace. *)
Inductive k8sE : Type -> Type :=
| ClientGetDeployment (namespace name : string) : k8sE (appsv1.Deployment + error)
| RESTMapping (gk : schema.GroupKind) (version : string)
    : k8sE (schema.GroupVersionResource + error)
| ScalesGet (namespace : string) (gr : schema.GroupResource) (name : string)
    : k8sE (autoscalingv1.Scale + error)
| ScalesUpdate (namespace : string) (gr : schema.GroupResource) (scale : autoscalingv1.Scale)
    : k8sE (autoscalingv1.Scale + error).

Class HasK8s (E : Type -> Type) : Type := k8s : forall X, k8sE X -> E X.
Arguments k8s {E _ X} e.
Global Instance HasK8s_sumr : HasK8s (sumE rtE k8sE) := fun _ e => inrE e.

(** Modelled from the spec: [util.GetDeploymentFor] is missing from the
    sources at hand; "Fetch current workload for r.ref.name in the namespace",
    a read of the Deployment through the client, which answers with the object
    or with an error (not-found among them). *)
Definition GetDeploymentFor {E} `{!HasK8s E} (namespace name : string)
  : Prog E (appsv1.Deployment + error) :=
  call (k8s (ClientGetDeployment namespace name)).

(** ** package flow (github.com/gardener/gardener/pkg/utils/flow)

    The part of the library the scaler uses to build its graph: task
    functions, task ids, tasks, [Graph.Add] and [Parallel].  A [TaskFn] is a
    func value; it is kept here as the term that built it, so that what a
    task was built from can be inspected: [NilFn] is the nil func, [Closure c]
    a func literal with captured variables [c], [Parallel fns] the result of
    [flow.Parallel(fns...)]. *)

Module flow.

Definition TaskID : Type := string.
(** The zero value of [TaskID]. *)
Definition zeroTaskID : TaskID := EmptyString.

(** A set of task ids. *)
Definition TaskIDs : Type := gset string.

Definition NewTaskIDs (ids : list TaskID) : TaskIDs := list_to_set ids.

#[local] Unset Elimination Schemes.
Inductive TaskFn (C : Type) : Type :=
| NilFn
| Closure (c : C)
| Parallel (fns : list (TaskFn C)).
#[local] Set Elimination Schemes.
Arguments NilFn {C}.
Arguments Closure {C} c.
Arguments Parallel {C} fns.


(** The nil funcs a task function holds: calling one panics. *)
Fixpoint nilFnsOf {C} (fn : TaskFn C) : nat :=
  match fn with
  | NilFn => 1%nat
  | Closure _ => 0%nat
  | Parallel fns => list_sum (List.map nilFnsOf fns)
  end.

Record Task (C : Type) : Type :=
  { Name : string; Fn : TaskFn C; Dependencies : TaskIDs }.
Arguments Name {C} _.
Arguments Fn {C} _.
Arguments Dependencies {C} _.

(** The tasks of a graph, by id, in the order they were added. *)
Record Graph (C : Type) : Type :=
  { name : string; tasks : list (TaskID * Task C) }.
Arguments name {C} _.
Arguments tasks {C} _.

Definition NewGraph {C} (name : string) : Graph C := {| name := name; tasks := [] |}.

Definition hasTask {C} (g : Graph C) (id : TaskID) : bool :=
  existsb (fun p => String.eqb p.1 id) (tasks g).

(** [Graph.Add]: the id of a task is its name; adding a second task with the
    same id panics. *)
Definition Add {E C} (g : Graph C) (task : Task C) : Prog E (Graph C * TaskID) :=
  let id : TaskID := Name task in
  if hasTask g id then Panic ("Task with id " +:+ id +:+ " already exists")
  else Ret ({| name := name g; tasks := tasks g ++ [(id, task)] |}, id).

(** A compiled flow.  The runner itself is the library's; a flow is kept as
    the name and the tasks it was compiled from. *)
Record Flow (C : Type) : Type := { flowName : string; flowTasks : list (TaskID * Task C) }.
Arguments flowName {C} _.
Arguments flowTasks {C} _.

Definition Compile {C} (g : Graph C) : Flow C :=
  {| flowName := name g; flowTasks := tasks g |}.

Definition Len {C} (f : Flow C) : nat := length (flowTasks f).

End flow.


(** ** package prober: scaler.go *)

Module prober.

Definition ignoreScalingAnnotationKey : string :=
  "dependency-watchdog.gardener.cloud/ignore-scaling".
Definition defaultMaxResourceScalingAttempts : Z := 3.
Definition defaultScaleResourceBackoff : Duration := 100 * Millisecond.

(** scaleableResourceInfo contains a flattened scaleUp or scaleDown resource
    info for a given resource reference.  [level] is an [int], [replicas] an
    [int32]; the code only compares them. *)
Record scaleableResourceInfo : Type :=
  { ref : autoscalingv1.CrossVersionObjectReference;
    level : Z;
    initialDelay : Duration;
    timeout : Duration;
    replicas : Z }.

Definition mismatchReplicasCheckFn : Type := Z -> Z -> bool.

(** The variables captured by the func literal of [createScaleTaskFn]. *)
Record scaleClosure : Type :=
  { clNamespace : string;
    clResourceInfo : scaleableResourceInfo;
    clMismatchReplicasCheckFn : mismatchReplicasCheckFn;
    clWaitOnResourceInfos : list scaleableResourceInfo }.

Definition isIgnoreScalingAnnotationSet (deployment : appsv1.Deployment) : bool :=
  match appsv1.Annotations deployment !! ignoreScalingAnnotationKey with
  | Some val => String.eqb val "true"
  | None => false
  end.

(** Go's builtin [copy(dst, src)]: overwrites the first
    [min (len dst) (len src)] elements of [dst]; the length of [dst] does not
    change.  A nil slice is the empty list. *)
Definition copy {A} (dst src : list A) : list A :=
  let n := Nat.min (length dst) (length src) in
  take n src ++ drop n dst.

Definition collectResourceInfosByLevel (resourceInfos : list scaleableResourceInfo)
  : gmap Z (list scaleableResourceInfo) :=
  foldl (fun (resInfosByLevel : gmap Z (list scaleableResourceInfo)) resInfo =>
           let level := level resInfo in
           match resInfosByLevel !! level with
           | None =>
               let levelResInfos := [] ++ [resInfo] in
               <[level := levelResInfos]> resInfosByLevel
           | Some l => <[level := l ++ [resInfo]]> resInfosByLevel
           end)
        ∅ resourceInfos.

(** The loop of [sortAndGetUniqueLevels]: [keys] is the set of levels seen,
    [levels] the levels in order of first occurrence. *)
Definition uniqueLevelsLoop (resourceInfos : list scaleableResourceInfo)
  : gmap Z bool * list Z :=
  foldl (fun (st : gmap Z bool * list Z) resInfo =>
           let '(keys, levels) := st in
           match keys !! level resInfo with
           | None => (<[level resInfo := true]> keys, levels ++ [level resInfo])
           | Some _ => (keys, levels)
           end)
        (∅, []) resourceInfos.

(** [sort.Ints] sorts in increasing order. *)
Definition sortInts (l : list Z) : list Z := merge_sort Z.le l.

Definition sortAndGetUniqueLevels (resourceInfos : list scaleableResourceInfo) : list Z :=
  sortInts (uniqueLevelsLoop resourceInfos).2.

(** [fmt]'s [%v] of the records, as the package prints a slice of structs
    with unexported fields: no String method is called, a Duration shows as
    its count of nanoseconds. *)
Definition fmtRef (r : autoscalingv1.CrossVersionObjectReference) : string :=
  "{" +:+ autoscalingv1.Kind r +:+ " " +:+ autoscalingv1.Name r +:+ " "
      +:+ autoscalingv1.APIVersion r +:+ "}".

Definition fmtResourceInfo (r : scaleableResourceInfo) : string :=
  "{" +:+ fmtRef (ref r) +:+ " " +:+ pretty (level r) +:+ " "
      +:+ pretty (initialDelay r) +:+ " " +:+ pretty (timeout r) +:+ " "
      +:+ pretty (replicas r) +:+ "}".

Fixpoint fmtJoin (l : list string) : string :=
  match l with
  | [] => EmptyString
  | [x] => x
  | x :: rest => x +:+ " " +:+ fmtJoin rest
  end.

Definition fmtResourceInfos (l : list scaleableResourceInfo) : string :=
  "[" +:+ fmtJoin (map fmtResourceInfo l) +:+ "]".

(** [fmt.Sprintf("scaling dependencies %v at level %d", resInfos, level)]. *)
Definition taskName (resInfos : list scaleableResourceInfo) (level : Z) : string :=
  "scaling dependencies " +:+ fmtResourceInfos resInfos +:+ " at level " +:+ pretty level.

(** createScaleTaskFn creates a flow.TaskFn for a slice of
    DependentResourceInfo.  [taskFns] starts as [make([]flow.TaskFn, len)],
    that is [len] nil funcs, and the loop appends one func literal per record.
    Each literal is bound here to the record of its own iteration (the
    semantics of Go 1.22; before it the literals share the loop variable and
    all see the last record). *)
Definition createScaleTaskFn {E} `{!HasRt E} (namespace : string)
    (resourceInfos : list scaleableResourceInfo)
    (mismatchReplicasCheckFn : mismatchReplicasCheckFn)
    (waitOnResourceInfos : list scaleableResourceInfo)
  : Prog E (flow.TaskFn scaleClosure) :=
  if (length resourceInfos =? 0)%nat then
    call (rt (LogInfo 4
      "(createScaleTaskFn) [unexpected] resourceInfos. This should never be the case.")) ;;;
    Ret flow.NilFn
  else
    let taskFns : list (flow.TaskFn scaleClosure) :=
      replicate (length resourceInfos) flow.NilFn in
    let taskFns :=
      foldl (fun taskFns resourceInfo =>
               let taskFn := flow.Closure
                 {| clNamespace := namespace;
                    clResourceInfo := resourceInfo;
                    clMismatchReplicasCheckFn := mismatchReplicasCheckFn;
                    clWaitOnResourceInfos := waitOnResourceInfos |} in
               taskFns ++ [taskFn])
            taskFns resourceInfos in
    if (length resourceInfos =? 1)%nat then
      match taskFns !! 0%nat with
      | Some taskFn => Ret taskFn
      | None => Panic "index out of range [0] with length 0"
      end
    else Ret (flow.Parallel taskFns).

(** The loop of [createResourceScaleFlow] over the sorted levels.
    [previousTaskID] is declared in the body of the loop, so every iteration
    starts from the zero id; the assignment that ends the body is to a
    variable that goes out of scope. *)
Fixpoint scaleFlowLoop {E} `{!HasRt E} (namespace : string)
    (orderedResourceInfos : gmap Z (list scaleableResourceInfo))
    (mismatchReplicasCheckFn : mismatchReplicasCheckFn)
    (levels : list Z) (g : flow.Graph scaleClosure)
    (previousLevelResourceInfos : list scaleableResourceInfo)
  : Prog E (flow.Graph scaleClosure) :=
  match levels with
  | [] => Ret g
  | level :: levels' =>
      let previousTaskID : flow.TaskID := flow.zeroTaskID in
      match orderedResourceInfos !! level with
      | Some resInfos =>
          fn <- createScaleTaskFn namespace resInfos
                  mismatchReplicasCheckFn previousLevelResourceInfos ;;
          r <- flow.Add g
                 {| flow.Name := taskName resInfos level;
                    flow.Fn := fn;
                    flow.Dependencies := flow.NewTaskIDs [previousTaskID] |} ;;
          let g := r.1 in
          let taskID := r.2 in
          let previousLevelResourceInfos := copy previousLevelResourceInfos resInfos in
          let previousTaskID := taskID in
          scaleFlowLoop namespace orderedResourceInfos mismatchReplicasCheckFn
            levels' g previousLevelResourceInfos
      | None =>
          scaleFlowLoop namespace orderedResourceInfos mismatchReplicasCheckFn
            levels' g previousLevelResourceInfos
      end
  end.

Definition createResourceScaleFlow {E} `{!HasRt E} (namespace flowName : string)
    (resourceInfos : list scaleableResourceInfo)
    (mismatchReplicasCheckFn : mismatchReplicasCheckFn)
  : Prog E (flow.Flow scaleClosure) :=
  let levels := sortAndGetUniqueLevels resourceInfos in
  let orderedResourceInfos := collectResourceInfosByLevel resourceInfos in
  let g := flow.NewGraph flowName in
  g <- scaleFlowLoop namespace orderedResourceInfos mismatchReplicasCheckFn levels g [] ;;
  Ret (flow.Compile g).





Section scaling.
Context {E : Type -> Type} `{!HasRt E} `{!HasK8s E}.

(** The loop of [shouldScale] over the resources to wait on.  The guard
    [waitOnResourceInfos != nil] around it has no effect of its own: ranging
    over a nil slice runs no iteration. *)
Fixpoint waitOnLoop (namespace : string) (mismatchReplicas : mismatchReplicasCheckFn)
    (waitOnResourceInfos : list scaleableResourceInfo) : Prog E bool :=
  match waitOnResourceInfos with
  | [] => Ret true
  | upstreamDependentResource :: rest =>
      r <- GetDeploymentFor namespace
             (autoscalingv1.Name (ref upstreamDependentResource)) ;;
      match r with
      | inr err =>
          call (rt (LogError err
            "failed to get deployment for upstream dependent resource, skipping scaling")) ;;;
          Ret false
      | inl upstreamDeployment =>
          let actualReplicas := appsv1.StatusReplicas upstreamDeployment in
          if mismatchReplicas actualReplicas (replicas upstreamDependentResource) then
            call (rt (LogInfo 4
              "upstream resource has still not been scaled to the desired replicas, skipping scaling of resource")) ;;;
            Ret false
          else waitOnLoop namespace mismatchReplicas rest
      end
  end.

Definition shouldScale (namespace : string) (deployment : appsv1.Deployment)
    (targetReplicas : Z) (mismatchReplicas : mismatchReplicasCheckFn)
    (waitOnResourceInfos : list scaleableResourceInfo) : Prog E bool :=
  if isIgnoreScalingAnnotationSet deployment then
    call (rt (LogInfo 4 "scaling ignored due to explicit instruction via annotation")) ;;;
    Ret false
  else
    (* check the current replicas and compare it against the desired replicas *)
    match appsv1.SpecReplicas deployment with
    | None => Panic "invalid memory address or nil pointer dereference"
    | Some deploymentSpecReplicas =>
        if negb (mismatchReplicas deploymentSpecReplicas targetReplicas) then
          call (rt (LogInfo 4
            "spec replicas matches the target replicas. scaling for this resource is skipped")) ;;;
          Ret false
        else
          (* check if all resources this resource should wait on have been scaled *)
          waitOnLoop namespace mismatchReplicas waitOnResourceInfos
    end.

Definition getGroupResource (resourceRef : autoscalingv1.CrossVersionObjectReference)
  : Prog E (schema.GroupResource * option error) :=
  let gv := (schema.ParseGroupVersion (autoscalingv1.APIVersion resourceRef)).1 in
  let gk := {| schema.gkGroup := schema.gvGroup gv;
               schema.gkKind := autoscalingv1.Kind resourceRef |} in
  r <- call (k8s (RESTMapping gk (schema.gvVersion gv))) ;;
  match r with
  | inr err =>
      call (rt (LogError err "failed to get RESTMapping for resource")) ;;;
      Ret ({| schema.grGroup := EmptyString; schema.grResource := EmptyString |}, Some err)
  | inl mapping => Ret (schema.toGroupResource mapping, None)
  end.

(** [doScale] returns a [*autoscalingv1.Scale] (nil on the error paths) and
    an error. *)
Definition doScale (namespace : string) (resourceInfo : scaleableResourceInfo)
  : Prog E (option autoscalingv1.Scale * option error) :=
  r <- getGroupResource (ref resourceInfo) ;;
  match r.2 with
  | Some err => Ret (None, Some err)
  | None =>
      let gr := r.1 in
      s <- call (k8s (ScalesGet namespace gr (autoscalingv1.Name (ref resourceInfo)))) ;;
      match s with
      | inr err => Ret (None, Some err)
      | inl scale =>
          let scale :=
            {| autoscalingv1.ScaleName := autoscalingv1.ScaleName scale;
               autoscalingv1.SpecReplicas := replicas resourceInfo;
               autoscalingv1.StatusReplicas := autoscalingv1.StatusReplicas scale |} in
          u <- call (k8s (ScalesUpdate namespace gr scale)) ;;
          match u with
          | inr err => Ret (None, Some err)
          | inl updated => Ret (Some updated, None)
          end
      end
  end.

(** [scale]: the result is the returned [error] ([None] is nil). *)
Definition scale (namespace : string) (resourceInfo : scaleableResourceInfo)
    (mismatchReplicas : mismatchReplicasCheckFn)
    (waitOnResourceInfos : list scaleableResourceInfo) : Prog E (option error) :=
  r <- GetDeploymentFor namespace (autoscalingv1.Name (ref resourceInfo)) ;;
  match r with
  | inr err =>
      call (rt (LogError err
        "error getting deployment for resource, skipping scaling operation")) ;;;
      Ret (Some err)
  | inl deployment =>
      (* sleep for initial delay *)
      err <- SleepWithContext (initialDelay resourceInfo) ;;
      match err with
      | Some err =>
          call (rt (LogError err
            "looks like the context has been cancelled. exiting scaling operation")) ;;;
          Ret (Some err)
      | None =>
          b <- shouldScale namespace deployment (replicas resourceInfo)
                 mismatchReplicas waitOnResourceInfos ;;
          if b then
            util.Retry None EmptyString (doScale namespace resourceInfo)
              defaultMaxResourceScalingAttempts defaultScaleResourceBackoff
              util.AlwaysRetry ;;;
            Ret None
          else Ret None
      end
  end.

(** The constant [defaultGetSecretBackoff] is declared in another file of
    the package. *)
Variable defaultGetSecretBackoff : Duration.

(** The func literal that [createScaleTaskFn] builds for one record, run with
    its captured variables.  Its [fn] returns [(nil, err)]. *)
Definition scaleTaskFn (c : scaleClosure) : Prog E (option error) :=
  let namespace := clNamespace c in
  let resourceInfo := clResourceInfo c in
  let operation :=
    "scale-resource-" +:+ namespace +:+ "." +:+ autoscalingv1.Name (ref resourceInfo) in
  result <- util.Retry tt operation
              (err <- scale namespace resourceInfo (clMismatchReplicasCheckFn c)
                        (clWaitOnResourceInfos c) ;;
               Ret (tt, err))
              defaultMaxResourceScalingAttempts defaultGetSecretBackoff
              util.AlwaysRetry ;;
  call (rt (LogInfo 4 "resource has been scaled")) ;;;
  Ret (util.Err result).

End scaling.

(** *** validator.go *)

(** A [*int]: the address and the [int] stored there; nil is [None]. *)
Record intPtr : Type := { address : Z; pointee : Z }.

(** The validator embeds an [error]: nil is the empty list, any other value
    is the [*multierror.Error] that holds these errors. *)
Record validator : Type := { verror : list error }.

(** [multierr.Append(err, e)] of github.com/hashicorp/go-multierror. *)
Definition multierrAppend (err : list error) (e : error) : list error := err ++ [e].

(** The [%d] of the error message is given the pointer [value], not the
    integer it points to: the message shows the address. *)
Definition MustBeGreaterThan {E} (v : validator) (key : string)
    (value : option intPtr) (lowerLimit : Z) : Prog E (bool * validator) :=
  match value with
  | None => Panic "invalid memory address or nil pointer dereference"
  | Some p =>
      if pointee p <? lowerLimit then
        Ret (false,
             {| verror := multierrAppend (verror v)
                  (Errorf (key +:+ " must have a value greater than "
                           +:+ pretty lowerLimit +:+ ". Found value "
                           +:+ pretty (address p))) |})
      else Ret (true, v)
  end.

Definition IfPresentMustBeGreaterThan {E} (v : validator) (key : string)
    (value : option intPtr) (lowerLimit : Z) : Prog E (bool * validator) :=
  match value with
  | Some _ => MustBeGreaterThan v key value lowerLimit
  | None => Ret (true, v)
  end.

(** [MustNotBeNil] and [MustNotBeEmpty] take an [interface{}]; what they look
    at is whether it is the nil interface and, through [reflect], its kind:
    a string, a slice (with its length), or anything else. *)
Inductive ifaceValue : Type :=
| NilInterface
| StringValue (s : string)
| SliceValue (len : nat)
| OtherValue.

Section notEmpty.
(** [strings.TrimSpace] of the Go library. *)
Variable TrimSpace : string -> string.

Definition MustNotBeEmpty {E} (v : validator) (key : string) (value : ifaceValue)
  : Prog E (bool * validator) :=
  match value with
  | NilInterface =>
      Ret (false,
           {| verror := multierrAppend (verror v)
                (Errorf (key +:+ " must not be nil or empty")) |})
  | StringValue s =>
      if String.eqb (TrimSpace s) EmptyString then
        Ret (false,
             {| verror := multierrAppend (verror v)
                  (Errorf (key +:+ " must not be empty")) |})
      else Ret (true, v)
  | SliceValue len =>
      if (len =? 0)%nat then
        Ret (false,
             {| verror := multierrAppend (verror v)
                  (Errorf (key +:+ " must not be empty")) |})
      else Ret (true, v)
  | OtherValue => Ret (true, v)
  end.
End notEmpty.

Definition MustNotBeNil {E} (v : validator) (key : string) (value : ifaceValue)
  : Prog E (bool * validator) :=
  match value with
  | NilInterface =>
      Ret (false,
           {| verror := multierrAppend (verror v)
                (Errorf (key +:+ " must not be nil")) |})
  | _ => Ret (true, v)
  end.

Definition ResourceRefMustBeValid {E} (v : validator)
    (resourceRef : autoscalingv1.CrossVersionObjectReference)
  : Prog E (bool * validator) :=
  match (schema.ParseGroupVersion (autoscalingv1.APIVersion resourceRef)).2 with
  | Some err => Ret (false, {| verror := multierrAppend (verror v) err |})
  | None => Ret (true, v)
  end.

(** *** The configuration the scaler is built from *)

(** Modelled from the spec: the declarations of [ScaleInfo],
    [DependentResourceInfo] and [Config] are missing from the sources at
    hand.  "Each ScaleInfo carries {level, initialDelay, timeout, replicas}";
    the fields and their pointer types are those that scaler.go dereferences
    and scaler_test.go fills in. *)
Record ScaleInfo : Type :=
  { Level : Z;
    InitialDelay : option Duration;
    Timeout : option Duration;
    Replicas : option Z }.

Record DependentResourceInfo : Type :=
  { Ref : autoscalingv1.CrossVersionObjectReference;
    ScaleUpInfo : option ScaleInfo;
    ScaleDownInfo : option ScaleInfo }.

Record Config : Type :=
  { DependentResourceInfos : list DependentResourceInfo }.

Definition nilDeref : string := "invalid memory address or nil pointer dereference".

(** The loop of [createScaleUpResourceInfos]: the composite literal reads the
    fields of [ScaleUpInfo] in order, and reading through a nil pointer
    panics. *)
Fixpoint scaleUpInfosLoop {E} (dependentResourceInfos : list DependentResourceInfo)
    (resourceInfos : list scaleableResourceInfo) : Prog E (list scaleableResourceInfo) :=
  match dependentResourceInfos with
  | [] => Ret resourceInfos
  | depResInfo :: rest =>
      match ScaleUpInfo depResInfo with
      | None => Panic nilDeref
      | Some info =>
          match InitialDelay info, Timeout info, Replicas info with
          | Some initialDelay, Some timeout, Some replicas =>
              let resInfo :=
                {| ref := Ref depResInfo;
                   level := Level info;
                   initialDelay := initialDelay;
                   timeout := timeout;
                   replicas := replicas |} in
              scaleUpInfosLoop rest (resourceInfos ++ [resInfo])
          | _, _, _ => Panic nilDeref
          end
      end
  end.

Definition createScaleUpResourceInfos {E} (dependentResourceInfos : list DependentResourceInfo)
  : Prog E (list scaleableResourceInfo) :=
  scaleUpInfosLoop dependentResourceInfos [].

(** The loop of [createScaleDownResourceInfos], on [ScaleDownInfo]. *)
Fixpoint scaleDownInfosLoop {E} (dependentResourceInfos : list DependentResourceInfo)
    (resourceInfos : list scaleableResourceInfo) : Prog E (list scaleableResourceInfo) :=
  match dependentResourceInfos with
  | [] => Ret resourceInfos
  | depResInfo :: rest =>
      match ScaleDownInfo depResInfo with
      | None => Panic nilDeref
      | Some info =>
          match InitialDelay info, Timeout info, Replicas info with
          | Some initialDelay, Some timeout, Some replicas =>
              let resInfo :=
                {| ref := Ref depResInfo;
                   level := Level info;
                   initialDelay := initialDelay;
                   timeout := timeout;
                   replicas := replicas |} in
              scaleDownInfosLoop rest (resourceInfos ++ [resInfo])
          | _, _, _ => Panic nilDeref
          end
      end
  end.

Definition createScaleDownResourceInfos {E} (dependentResourceInfos : list DependentResourceInfo)
  : Prog E (list scaleableResourceInfo) :=
  scaleDownInfosLoop dependentResourceInfos [].

(** The flows of a [deploymentScaler]; its clients are the handler of the
    calls. *)
Record deploymentScaler : Type :=
  { dsNamespace : string;
    scaleDownFlow : flow.Flow scaleClosure;
    scaleUpFlow : flow.Flow scaleClosure }.

(** [NewDeploymentScaler]; [config] is a pointer. *)
Definition NewDeploymentScaler {E} `{!HasRt E} (namespace : string) (config : option Config)
  : Prog E deploymentScaler :=
  match config with
  | None => Panic nilDeref
  | Some config =>
      downInfos <- createScaleDownResourceInfos (DependentResourceInfos config) ;;
      scaleDownFlow <- createResourceScaleFlow namespace ("scale-down-" +:+ namespace)
                         downInfos ScaleDownReplicasMismatch ;;
      upInfos <- createScaleUpResourceInfos (DependentResourceInfos config) ;;
      scaleUpFlow <- createResourceScaleFlow namespace ("scale-up-" +:+ namespace)
                       upInfos ScaleUpReplicasMismatch ;;
      Ret {| dsNamespace := namespace;
             scaleDownFlow := scaleDownFlow;
             scaleUpFlow := scaleUpFlow |}
  end.

End prober.


(** ** package weeder: the pod watcher *)

(** k8s.io/apimachinery/pkg/watch and the objects an event can carry. *)
Module watch.
(** [EventType] is a string type. *)
Definition EventType : Type := string.
Definition Added : EventType := "ADDED".
Definition Modified : EventType := "MODIFIED".
Definition Deleted : EventType := "DELETED".
Definition Bookmark : EventType := "BOOKMARK".
Definition Error : EventType := "ERROR".

Record Pod : Type := { Namespace : string; Name : string }.

(** The dynamic type of a [runtime.Object]: a [*v1.Pod] or something else
    (a [*metav1.Status], another kind, nil). *)
Inductive Object : Type :=
| PodObject (pod : Pod)
| OtherObject (kind : string).

Record Event : Type := { Type_ : EventType; Object_ : Object }.

(** A [watch.Interface] handed out by the API client. *)
Definition Interface : Type := Z.
End watch.

Record NamespacedName : Type := { nnNamespace : string; nnName : string }.

(** What the [select] of the watch loop receives. *)
Inductive selected : Type :=
| SelDone                       (* <-ctx.Done() *)
| SelClosed                     (* the receive from ResultChan() with ok = false *)
| SelEvent (event : watch.Event).

(** Calls of the pod watcher:
    - [PodsWatch namespace selector] is
      [client.CoreV1().Pods(namespace).Watch(ctx, ListOptions{LabelSelector: selector})];
    - [SelectDoneOrResult w] is the [select] over [ctx.Done()] and
      [w.ResultChan()];
    - [EventHandlerFn nn] is the call of the watcher's [eventHandlerFn]. *)
Inductive weederE : Type -> Type :=
| PodsWatch (namespace selector : string) : weederE (watch.Interface + error)
| SelectDoneOrResult (w : watch.Interface) : weederE selected
| WatchStop (w : watch.Interface) : weederE unit
| EventHandlerFn (nn : NamespacedName) : weederE (option error).

Class HasWeeder (E : Type -> Type) : Type := wd : forall X, weederE X -> E X.
Arguments wd {E _ X} e.
Global Instance HasWeeder_sumr : HasWeeder (sumE rtE weederE) := fun _ e => inrE e.

Module weeder.

Definition watchCreationRetryInterval : Duration := 500 * Millisecond.

(** The fields of [Weeder] the watcher reads. *)
Record Weeder : Type := { namespace : string; endpointsName : string }.

(** podWatcher watches a pod for status changes.  [selector] is kept as the
    string the label selector renders to; [k8sWatch] is nil ([None]) until a
    watch has been created. *)
Record podWatcher : Type :=
  { selector : string;
    k8sWatch : option watch.Interface;
    weeder : Weeder }.

Definition setK8sWatch (pw : podWatcher) (w : watch.Interface) : podWatcher :=
  {| selector := selector pw; k8sWatch := Some w; weeder := weeder pw |}.

Definition canProcessEvent (ev : watch.Event) : bool :=
  if (String.eqb (watch.Type_ ev) watch.Added
      || String.eqb (watch.Type_ ev) watch.Modified)%bool
  then match watch.Object_ ev with
       | watch.PodObject _ => true
       | _ => false
       end
  else false.

Section watcher.
Context {E : Type -> Type} `{!HasRt E} `{!HasWeeder E}.

Definition doCreateK8sWatch (namespace lSelector : string)
  : Prog E (option watch.Interface * option error) :=
  r <- call (wd (PodsWatch namespace lSelector)) ;;
  match r with
  | inr err => Ret (None, Some err)
  | inl w => Ret (Some w, None)
  end.

(** [createK8sWatch]: the func literal assigns [pw.k8sWatch]; the watcher is
    the state threaded through [RetryOnError]. *)
Definition createK8sWatch (retryFuel : nat) (pw : podWatcher) : Prog E podWatcher :=
  let operation :=
    "Creating kubernetes watch for namespace " +:+ namespace (weeder pw)
    +:+ ", service " +:+ endpointsName (weeder pw)
    +:+ " with selector " +:+ selector pw in
  util.RetryOnError retryFuel operation
    (fun pw =>
       r <- doCreateK8sWatch (namespace (weeder pw)) (selector pw) ;;
       match r.2, r.1 with
       | Some err, _ => Ret (Some err, pw)
       | None, Some w => Ret (None, setK8sWatch pw w)
       | None, None => Ret (None, pw)
       end)
    watchCreationRetryInterval pw.

Definition close (pw : podWatcher) : Prog E unit :=
  match k8sWatch pw with
  | Some w => call (wd (WatchStop w))
  | None => Ret tt
  end.

(** The [for { select { ... } }] of [watch]; [fuel] bounds its iterations.
    The select evaluates [pw.k8sWatch.ResultChan()], which panics on a nil
    watch; the type assertion of [event.Object] to a pod pointer panics on any
    other object. *)
Fixpoint watchLoop (fuel retryFuel : nat) (pw : podWatcher) : Prog E podWatcher :=
  match fuel with
  | O => Spin
  | S fuel' =>
      match k8sWatch pw with
      | None => Panic "invalid memory address or nil pointer dereference"
      | Some w =>
          sel <- call (wd (SelectDoneOrResult w)) ;;
          match sel with
          | SelDone =>
              call (rt (LogInfo 4
                "Exiting watch as context has timed-out or has been cancelled")) ;;;
              Ret pw
          | SelClosed =>
              call (rt (LogInfo 3 "Watch has stopped, recreating kubernetes watch")) ;;;
              pw <- createK8sWatch retryFuel pw ;;
              watchLoop fuel' retryFuel pw
          | SelEvent event =>
              if negb (canProcessEvent event) then watchLoop fuel' retryFuel pw
              else
                match watch.Object_ event with
                | watch.PodObject targetPod =>
                    err <- call (wd (EventHandlerFn
                             {| nnNamespace := watch.Namespace targetPod;
                                nnName := watch.Name targetPod |})) ;;
                    match err with
                    | Some err =>
                        call (rt (LogError err "error processing pod ")) ;;;
                        watchLoop fuel' retryFuel pw
                    | None => watchLoop fuel' retryFuel pw
                    end
                | _ => Panic "interface conversion: runtime.Object is not *v1.Pod"
                end
          end
      end
  end.

(** [watch]: [defer pw.close()] runs when the loop returns.  (Of the two
    panics of the loop, the first leaves no watch to stop and the second is
    behind [canProcessEvent].) *)
Definition watch (fuel retryFuel : nat) (pw : podWatcher) : Prog E unit :=
  pw <- createK8sWatch retryFuel pw ;;
  pw <- watchLoop fuel retryFuel pw ;;
  close pw.

End watcher.

End weeder.


(** ** Handlers: a clock with a cancellable context, and a model cluster *)

Module model.

(** The clock of a run and the instant (if any) at which the context is
    cancelled. *)
Record Clock : Type := { now : Z; cancelAt : option Z }.

(** [ctx.Err()] as seen at instant [t]. *)
Definition ctxErrAt (c : Clock) (t : Z) : option error :=
  match cancelAt c with
  | Some ca => if ca <=? t then Some ContextCanceled else None
  | None => None
  end.

Definition advance (c : Clock) (t : Z) : Clock :=
  {| now := t; cancelAt := cancelAt c |}.

(** Timers and sleeps take the time they are asked for; a [select] on the
    context and a timer ends at the earlier of the two instants; logging and
    polling take no time. *)
Definition rtH : Handler rtE Clock :=
  fun X e =>
    match e in rtE X return Clock -> X * Clock with
    | CtxDone => fun c => (ctxErrAt c (now c), c)
    | AfterOrDone d => fun c =>
        let deadline := now c + Z.max 0 d in
        match ctxErrAt c deadline with
        | Some err => (Some err, advance c (Z.max (now c) (default (now c) (cancelAt c))))
        | None => (None, advance c deadline)
        end
    | TimeSleep d => fun c => (tt, advance c (now c + Z.max 0 d))
    | LogError _ _ => fun c => (tt, c)
    | LogInfo _ _ => fun c => (tt, c)
    end.

(** A cluster: the clock and the Deployments by namespace and name. *)
Record Cluster : Type :=
  { clock : Clock;
    deployments : gmap (string * string) appsv1.Deployment }.

Definition withClock (cl : Cluster) (c : Clock) : Cluster :=
  {| clock := c; deployments := deployments cl |}.

Definition withDeployments (cl : Cluster)
    (ds : gmap (string * string) appsv1.Deployment) : Cluster :=
  {| clock := clock cl; deployments := ds |}.

Definition clusterRtH : Handler rtE Cluster :=
  fun X e cl => ((rtH X e (clock cl)).1, withClock cl (rtH X e (clock cl)).2).

Definition scaleOf (d : appsv1.Deployment) : autoscalingv1.Scale :=
  {| autoscalingv1.ScaleName := appsv1.Name d;
     autoscalingv1.SpecReplicas := default 0 (appsv1.SpecReplicas d);
     autoscalingv1.StatusReplicas := appsv1.StatusReplicas d |}.

Definition setSpecReplicas (d : appsv1.Deployment) (n : Z) : appsv1.Deployment :=
  {| appsv1.Name := appsv1.Name d;
     appsv1.Annotations := appsv1.Annotations d;
     appsv1.SpecReplicas := Some n;
     appsv1.StatusReplicas := appsv1.StatusReplicas d |}.

(** The API server of the model: reads answer from the stored objects or
    with not-found; the REST mapper knows the kind Deployment; an update of
    the scale subresource stores the new spec replicas (the status is left to
    the controllers). *)
Definition clusterK8sH : Handler k8sE Cluster :=
  fun X e =>
    match e in k8sE X return Cluster -> X * Cluster with
    | ClientGetDeployment ns name => fun cl =>
        match deployments cl !! (ns, name) with
        | Some d => (inl d, cl)
        | None => (inr (StatusNotFound name), cl)
        end
    | RESTMapping gk version => fun cl =>
        if String.eqb (schema.gkKind gk) "Deployment"
        then (inl {| schema.gvrGroup := schema.gkGroup gk;
                     schema.gvrVersion := version;
                     schema.gvrResource := "deployments" |}, cl)
        else (inr (StatusError "no matches for kind"), cl)
    | ScalesGet ns gr name => fun cl =>
        match deployments cl !! (ns, name) with
        | Some d => (inl (scaleOf d), cl)
        | None => (inr (StatusNotFound name), cl)
        end
    | ScalesUpdate ns gr scale => fun cl =>
        match deployments cl !! (ns, autoscalingv1.ScaleName scale) with
        | Some d =>
            (inl scale,
             withDeployments cl
               (<[(ns, autoscalingv1.ScaleName scale) :=
                    setSpecReplicas d (autoscalingv1.SpecReplicas scale)]>
                  (deployments cl)))
        | None => (inr (StatusNotFound (autoscalingv1.ScaleName scale)), cl)
        end
    end.

Definition clusterH : Handler (sumE rtE k8sE) Cluster := sumH clusterRtH clusterK8sH.

(** A function handed to [Retry] or [RetryOnError], seen from outside: one
    call, answered with a value and an error. *)
Inductive fnE (T : Type) : Type -> Type :=
| CallFn : fnE T (T * option error).
Arguments CallFn {T}.

(** A function whose successive calls give the answers of a script, and
    [dflt] once the script is used up; it takes no time. *)
Definition scriptedFnH {T} (dflt : T * option error)
  : Handler (fnE T) (Clock * list (T * option error)) :=
  fun X e =>
    match e in fnE _ X return Clock * list (T * option error)
                              -> X * (Clock * list (T * option error)) with
    | CallFn => fun st =>
        match st.2 with
        | [] => (dflt, st)
        | a :: rest => (a, (st.1, rest))
        end
    end.

Definition scriptedRtH {T} : Handler rtE (Clock * list (T * option error)) :=
  fun X e st => ((rtH X e st.1).1, ((rtH X e st.1).2, st.2)).

Definition scriptedH {T} (dflt : T * option error)
  : Handler (sumE rtE (fnE T)) (Clock * list (T * option error)) :=
  sumH scriptedRtH (scriptedFnH dflt).

(** The function handed to [RetryOnError], seen from outside; it assigns no
    captured variable. *)
Definition opaqueRetriable {St : Type} (st : St)
  : Prog (sumE rtE (fnE unit)) (option error * St) :=
  r <- call (inrE CallFn) ;; Ret (r.2, st).

(** The world of a pod watcher: the clock, the answers the API server will
    give to the next watch creations (an error once they are used up), the
    events the select will receive (the channel is closed once they are used
    up), and the pods the event handler was called for. *)
Record WatchWorld : Type :=
  { wclock : Clock;
    creations : list (watch.Interface + error);
    inbox : list selected;
    handled : list NamespacedName }.

Definition watchRtH : Handler rtE WatchWorld :=
  fun X e w =>
    ((rtH X e (wclock w)).1,
     {| wclock := (rtH X e (wclock w)).2; creations := creations w;
        inbox := inbox w; handled := handled w |}).

Definition watchWeederH : Handler weederE WatchWorld :=
  fun X e =>
    match e in weederE X return WatchWorld -> X * WatchWorld with
    | PodsWatch _ _ => fun w =>
        match creations w with
        | [] => (inr (StatusError "the server is currently unable to handle the request"), w)
        | a :: rest =>
            (a, {| wclock := wclock w; creations := rest;
                   inbox := inbox w; handled := handled w |})
        end
    | SelectDoneOrResult _ => fun w =>
        match ctxErrAt (wclock w) (now (wclock w)), inbox w with
        | Some _, _ => (SelDone, w)
        | None, [] => (SelClosed, w)
        | None, a :: rest =>
            (a, {| wclock := wclock w; creations := creations w;
                   inbox := rest; handled := handled w |})
        end
    | WatchStop _ => fun w => (tt, w)
    | EventHandlerFn nn => fun w =>
        (None, {| wclock := wclock w; creations := creations w;
                  inbox := inbox w; handled := handled w ++ [nn] |})
    end.

Definition watchH : Handler (sumE rtE weederE) WatchWorld := sumH watchRtH watchWeederH.

(** The records of the scaler's tests. *)
Definition deploymentRef (name : string) : autoscalingv1.CrossVersionObjectReference :=
  {| autoscalingv1.Kind := "Deployment"; autoscalingv1.Name := name;
     autoscalingv1.APIVersion := "apps/v1" |}.

Definition resourceInfo (name : string) (level replicas : Z) : prober.scaleableResourceInfo :=
  {| prober.ref := deploymentRef name; prober.level := level;
     prober.initialDelay := 10 * Millisecond; prober.timeout := 20 * Millisecond;
     prober.replicas := replicas |}.

Definition ca : prober.scaleableResourceInfo := resourceInfo "cluster-autoscaler" 1 0.
Definition mcm : prober.scaleableResourceInfo := resourceInfo "machine-controller-manager" 0 0.
Definition kcm : prober.scaleableResourceInfo := resourceInfo "kube-controller-manager" 0 0.

Definition deployment (name : string) (annotations : gmap string string)
    (specReplicas statusReplicas : Z) : appsv1.Deployment :=
  {| appsv1.Name := name; appsv1.Annotations := annotations;
     appsv1.SpecReplicas := Some specReplicas;
     appsv1.StatusReplicas := statusReplicas |}.

Definition clusterOf (ds : list appsv1.Deployment) : Cluster :=
  {| clock := {| now := 0; cancelAt := None |};
     deployments := list_to_map (List.map (fun d => (("default", appsv1.Name d), d)) ds) |}.


(** A clock at instant 0 whose context is never cancelled. *)
Definition clock0 : Clock := {| now := 0; cancelAt := None |}.

(** The predicate handed to [RetryUntilPredicate], seen from outside. *)
Inductive predE : Type -> Type :=
| CallPredicate : predE bool.

(** The dependent resources of the scaler's tests: name, scale-up level,
    scale-down level, scale-up replicas, scale-down replicas. *)
Definition dependentResourceInfo (name : string)
    (scaleUpLevel scaleDownLevel scaleUpReplicas scaleDownReplicas : Z)
  : prober.DependentResourceInfo :=
  {| prober.Ref := deploymentRef name;
     prober.ScaleUpInfo :=
       Some {| prober.Level := scaleUpLevel;
               prober.InitialDelay := Some (10 * Millisecond);
               prober.Timeout := Some (20 * Millisecond);
               prober.Replicas := Some scaleUpReplicas |};
     prober.ScaleDownInfo :=
       Some {| prober.Level := scaleDownLevel;
               prober.InitialDelay := Some (10 * Millisecond);
               prober.Timeout := Some (20 * Millisecond);
               prober.Replicas := Some scaleDownReplicas |} |}.

Definition probeConfig : prober.Config :=
  {| prober.DependentResourceInfos :=
       [dependentResourceInfo "machine-controller-manager" 2 0 1 0;
        dependentResourceInfo "kube-controller-manager" 1 0 1 0;
        dependentResourceInfo "cluster-autoscaler" 0 1 1 0] |}.

(** No event at all: the signature of code that only computes. *)
Inductive voidE : Type -> Type := .

Definition voidH : Handler voidE unit :=
  fun X e => match e in voidE _ return unit -> X * unit with end.

End model.

(** ** Reading strings *)

Module words.

Definition space : Ascii.ascii := Ascii.ascii_of_nat 32.

Fixpoint hasSpace (s : string) : bool :=
  match s with
  | EmptyString => false
  | String c rest => (Ascii.eqb c space || hasSpace rest)%bool
  end.

(** What follows the last space of a string (the string itself when it has
    no space). *)
Fixpoint lastWord (s : string) : string :=
  match s with
  | EmptyString => EmptyString
  | String c rest =>
      if hasSpace rest then lastWord rest
      else if Ascii.eqb c space then rest else String c rest
  end.

End words.

(** ** Reading traces *)

Module traces.

(** How many elements of a list satisfy a test. *)
Definition countb {A} (p : A -> bool) (l : list A) : nat := length (List.filter p l).

Section retryTraces.
Context {T : Type}.
Abbreviation E := (sumE rtE (model.fnE T)).

Definition isFnCall (c : Call E) : bool :=
  match c with
  | mkCall e _ => match e with inrE _ => true | inlE _ => false end
  end.

(** A wait of the retry helpers: the backoff [select] or a plain sleep. *)
Definition isBackoff (c : Call E) : bool :=
  match c with
  | mkCall e _ =>
      match e with
      | inlE (AfterOrDone _) => true
      | inlE (TimeSleep _) => true
      | _ => false
      end
  end.

(** The answer of a call of the function. *)
Definition fnAnswer (c : Call E) : option (T * option error) :=
  match c with
  | mkCall e x =>
      match e with
      | inrE f =>
          match f in model.fnE _ X return X -> option (T * option error) with
          | model.CallFn => fun x => Some x
          end x
      | inlE _ => None
      end
  end.

(** A failed attempt that [canRetry] accepts. *)
Definition isRetriableFailure (canRetry : error -> bool) (c : Call E) : bool :=
  match fnAnswer c with
  | Some (_, Some e) => canRetry e
  | _ => false
  end.

(** The context's error, when a call found the context done. *)
Definition ctxAnswer (c : Call E) : option error :=
  match c with
  | mkCall e x =>
      match e with
      | inlE r =>
          match r in rtE X return X -> option error with
          | CtxDone => fun x => x
          | AfterOrDone _ => fun x => x
          | _ => fun _ => None
          end x
      | inrE _ => None
      end
  end.


Definition lastCtxAnswer (tr : list (Call E)) : option error :=
  last (omap ctxAnswer tr).




End retryTraces.

(** An update of the scale subresource: the only write of the scaler. *)
Definition isScaleWrite (c : Call (sumE rtE k8sE)) : bool :=
  match c with
  | mkCall e _ =>
      match e with
      | inrE (ScalesUpdate _ _ _) => true
      | _ => false
      end
  end.

Definition isLogError (c : Call (sumE rtE k8sE)) : bool :=
  match c with
  | mkCall e _ =>
      match e with
      | inlE (LogError _ _) => true
      | _ => false
      end
  end.





Section untilTraces.
Abbreviation UE := (sumE rtE (sumE timerE model.predE)).

(** The answer of a call of the predicate. *)
Definition predAnswer (c : Call UE) : option bool :=
  match c with
  | mkCall e x =>
      match e with
      | inrE (inrE f) =>
          match f in model.predE X return X -> option bool with
          | model.CallPredicate => fun x => Some x
          end x
      | _ => None
      end
  end.

(** What a poll of the context and the timer took. *)
Definition pollAnswer (c : Call UE) : option polled :=
  match c with
  | mkCall e x =>
      match e with
      | inrE (inlE t) =>
          match t in timerE X return X -> option polled with
          | PollDoneOrTimer _ => fun x => Some x
          | NewTimer _ => fun _ => None
          end x
      | _ => None
      end
  end.

Definition isSleep (c : Call UE) : bool :=
  match c with
  | mkCall e _ => match e with inlE (TimeSleep _) => true | _ => false end
  end.

Definition isNewTimer (c : Call UE) : bool :=
  match c with
  | mkCall e _ => match e with inrE (inlE (NewTimer _)) => true | _ => false end
  end.

(** A call of the predicate answered [b]. *)
Definition predSaid (b : bool) (c : Call UE) : bool :=
  match predAnswer c with
  | Some b' => Bool.eqb b b'
  | None => false
  end.

Definition isPredCall (c : Call UE) : bool :=
  match predAnswer c with Some _ => true | None => false end.

Definition isPoll (c : Call UE) : bool :=
  match pollAnswer c with Some _ => true | None => false end.

(** A poll that found neither the context done nor the timer expired. *)
Definition tookDefault (c : Call UE) : bool :=
  match pollAnswer c with Some PollDefault => true | _ => false end.

Definition lastPoll (tr : list (Call UE)) : option polled :=
  last (omap pollAnswer tr).
End untilTraces.

(** Calls of the scaler on the API server, by kind. *)
Definition isScalesGet (c : Call (sumE rtE k8sE)) : bool :=
  match c with
  | mkCall e _ => match e with inrE (ScalesGet _ _ _) => true | _ => false end
  end.

(** The scale sent by an update. *)
Definition updateSent (c : Call (sumE rtE k8sE))
  : option (string * schema.GroupResource * autoscalingv1.Scale) :=
  match c with
  | mkCall e _ =>
      match e with
      | inrE (ScalesUpdate ns gr sc) => Some (ns, gr, sc)
      | _ => None
      end
  end.

(** The scale that a Get of the scale subresource answered with. *)
Definition scaleGot (c : Call (sumE rtE k8sE)) : option autoscalingv1.Scale :=
  match c with
  | mkCall e x =>
      match e with
      | inrE k =>
          match k in k8sE X return X -> option autoscalingv1.Scale with
          | ScalesGet _ _ _ => fun x => match x with inl sc => Some sc | inr _ => None end
          | _ => fun _ => None
          end x
      | inlE _ => None
      end
  end.

(** The answer that an update of the scale subresource received. *)
Definition updateAnswered (c : Call (sumE rtE k8sE))
  : option (autoscalingv1.Scale + error) :=
  match c with
  | mkCall e x =>
      match e with
      | inrE k =>
          match k in k8sE X return X -> option (autoscalingv1.Scale + error) with
          | ScalesUpdate _ _ _ => fun x => Some x
          | _ => fun _ => None
          end x
      | inlE _ => None
      end
  end.

Definition isWatchStop (c : Call (sumE rtE weederE)) : bool :=
  match c with
  | mkCall e _ => match e with inrE (WatchStop _) => true | _ => false end
  end.

Definition isPodsWatch (c : Call (sumE rtE weederE)) : bool :=
  match c with
  | mkCall e _ => match e with inrE (PodsWatch _ _) => true | _ => false end
  end.

(** The watch that a creation answered with. *)
Definition createdWatch (c : Call (sumE rtE weederE)) : option watch.Interface :=
  match c with
  | mkCall e x =>
      match e with
      | inrE k =>
          match k in weederE X return X -> option watch.Interface with
          | PodsWatch _ _ => fun x => match x with inl w => Some w | inr _ => None end
          | _ => fun _ => None
          end x
      | inlE _ => None
      end
  end.

Definition stoppedWatch (c : Call (sumE rtE weederE)) : option watch.Interface :=
  match c with
  | mkCall e _ => match e with inrE (WatchStop w) => Some w | _ => None end
  end.

Definition isSelect (c : Call (sumE rtE weederE)) : bool :=
  match c with
  | mkCall e _ => match e with inrE (SelectDoneOrResult _) => true | _ => false end
  end.

(** The watch held after a stretch of calls: the last one created in it, or
    the one held before. *)
Definition heldAfter (tr : list (Call (sumE rtE weederE)))
    (held : option watch.Interface) : option watch.Interface :=
  match last (omap createdWatch tr) with
  | Some w => Some w
  | None => held
  end.

(** A record is the flattening of a dependent resource for one direction:
    the reference is kept and every field is the one of the direction's
    [ScaleInfo], read through its pointer. *)
Definition flattened (dir : prober.DependentResourceInfo -> option prober.ScaleInfo)
    (dep : prober.DependentResourceInfo) (info : prober.scaleableResourceInfo) : Prop :=
  exists si, dir dep = Some si /\
    prober.ref info = prober.Ref dep /\
    prober.level info = prober.Level si /\
    prober.InitialDelay si = Some (prober.initialDelay info) /\
    prober.Timeout si = Some (prober.timeout info) /\
    prober.Replicas si = Some (prober.replicas info).

(** The flattening as a function; [None] where a pointer is nil. *)
Definition flattenScaleInfo (ref : autoscalingv1.CrossVersionObjectReference)
    (o : option prober.ScaleInfo) : option prober.scaleableResourceInfo :=
  match o with
  | Some info =>
      match prober.InitialDelay info, prober.Timeout info, prober.Replicas info with
      | Some initialDelay, Some timeout, Some replicas =>
          Some {| prober.ref := ref; prober.level := prober.Level info;
                  prober.initialDelay := initialDelay; prober.timeout := timeout;
                  prober.replicas := replicas |}
      | _, _, _ => None
      end
  | None => None
  end.

(** The levels configured for one direction. *)
Definition configuredLevels (dir : prober.DependentResourceInfo -> option prober.ScaleInfo)
    (deps : list prober.DependentResourceInfo) : list Z :=
  omap (fun dep => prober.Level <$> dir dep) deps.

(** Whether a workload of a wait-on set lets the scaling go on: it is there
    and its status replicas do not mismatch its target. *)
Definition upstreamReady (cl : model.Cluster) (namespace : string)
    (mm : prober.mismatchReplicasCheckFn) (u : prober.scaleableResourceInfo) : bool :=
  match model.deployments cl !! (namespace, autoscalingv1.Name (prober.ref u)) with
  | Some d => negb (mm (appsv1.StatusReplicas d) (prober.replicas u))
  | None => false
  end.

End traces.


(** * Properties *)

(** ** Runs *)

Section runLemmas.
Context {E : Type -> Type} {S : Type} (h : Handler E S).

Lemma run_vis {A X} (e : E X) (k : X -> Prog E A) (s : S) :
  run h (Vis e k) s =
  (result h (k (h X e s).1) (h X e s).2,
   final h (k (h X e s).1) (h X e s).2,
   mkCall e (h X e s).1 :: trace h (k (h X e s).1) (h X e s).2).
Proof.
  unfold result, final, trace. simpl.
  destruct (h X e s) as [x s1]. simpl.
  destruct (run h (k x) s1) as [[r s2] tr]. reflexivity.
Qed.

Lemma trace_vis {A X} (e : E X) (k : X -> Prog E A) (s : S) :
  trace h (Vis e k) s = mkCall e (h X e s).1 :: trace h (k (h X e s).1) (h X e s).2.
Proof. unfold trace at 1. rewrite run_vis. reflexivity. Qed.

Lemma result_vis {A X} (e : E X) (k : X -> Prog E A) (s : S) :
  result h (Vis e k) s = result h (k (h X e s).1) (h X e s).2.
Proof. unfold result at 1. rewrite run_vis. reflexivity. Qed.

Lemma final_vis {A X} (e : E X) (k : X -> Prog E A) (s : S) :
  final h (Vis e k) s = final h (k (h X e s).1) (h X e s).2.
Proof. unfold final at 1. rewrite run_vis. reflexivity. Qed.

Lemma trace_ret {A} (a : A) (s : S) : trace h (Ret a) s = [].
Proof. reflexivity. Qed.

Lemma result_ret {A} (a : A) (s : S) : result h (Ret a) s = Returned a.
Proof. reflexivity. Qed.

Lemma final_ret {A} (a : A) (s : S) : final h (Ret a) s = s.
Proof. reflexivity. Qed.

(** The run of a sequence is the run of its first part followed, when that
    part returns, by the run of the rest from the state reached. *)
Lemma run_bind {A B} (p : Prog E A) (f : A -> Prog E B) (s : S) :
  run h (bind p f) s =
  match result h p s with
  | Returned a =>
      (result h (f a) (final h p s),
       final h (f a) (final h p s),
       trace h p s ++ trace h (f a) (final h p s))
  | Panicked msg => (Panicked msg, final h p s, trace h p s)
  | OutOfFuel => (OutOfFuel, final h p s, trace h p s)
  end.
Proof.
  revert s. induction p as [a | msg | | X e k IH]; intros s.
  - simpl. unfold result, final, trace. simpl.
    destruct (run h (f a) s) as [[r s2] tr]. reflexivity.
  - reflexivity.
  - reflexivity.
  - cbn [bind]. rewrite run_vis, result_vis, final_vis, trace_vis.
    unfold result at 1, final at 1, trace at 1. rewrite IH.
    destruct (result h (k (h X e s).1) (h X e s).2); reflexivity.
Qed.

Lemma trace_bind_returned {A B} (p : Prog E A) (f : A -> Prog E B) (s : S) a :
  result h p s = Returned a ->
  trace h (bind p f) s = trace h p s ++ trace h (f a) (final h p s).
Proof. intros Hr. unfold trace at 1. rewrite run_bind, Hr. reflexivity. Qed.

Lemma result_bind_returned {A B} (p : Prog E A) (f : A -> Prog E B) (s : S) a :
  result h p s = Returned a ->
  result h (bind p f) s = result h (f a) (final h p s).
Proof. intros Hr. unfold result at 1. rewrite run_bind, Hr. reflexivity. Qed.

Lemma final_bind_returned {A B} (p : Prog E A) (f : A -> Prog E B) (s : S) a :
  result h p s = Returned a ->
  final h (bind p f) s = final h (f a) (final h p s).
Proof. intros Hr. unfold final at 1. rewrite run_bind, Hr. reflexivity. Qed.

End runLemmas.

Lemma trace_bind {E S A B} (h : Handler E S) (p : Prog E A) (f : A -> Prog E B) (s : S) :
  trace h (bind p f) s =
  trace h p s ++ match result h p s with
                 | Returned a => trace h (f a) (final h p s)
                 | _ => []
                 end.
Proof.
  unfold trace at 1. rewrite run_bind.
  destruct (result h p s); cbn [snd]; [reflexivity | |]; rewrite app_nil_r; reflexivity.
Qed.

Ltac step_run :=
  repeat first
    [ rewrite trace_vis | rewrite result_vis | rewrite final_vis
    | rewrite trace_ret | rewrite result_ret | rewrite final_ret ].

(** ** util.Retry *)

Import traces.

Section retryProps.
Context {T S : Type} (zeroT : T) (h : Handler (sumE rtE (model.fnE T)) S).
Variables (operation : string) (backOff : Duration) (canRetry : error -> bool).

Let fn : Prog (sumE rtE (model.fnE T)) (T * option error) := call (inrE model.CallFn).
Let loop := util.retryLoop zeroT operation fn backOff canRetry.


Lemma lastCtxAnswer_cons (c : Call (sumE rtE (model.fnE T))) tr :
  lastCtxAnswer (c :: tr) =
  match lastCtxAnswer tr with Some a => Some a | None => ctxAnswer c end.
Proof.
  unfold lastCtxAnswer. simpl. destruct (ctxAnswer c) as [a|].
  - rewrite last_cons. reflexivity.
  - destruct (last _); reflexivity.
Qed.

Lemma countb_cons {A} (p : A -> bool) (x : A) l :
  countb p (x :: l) = ((if p x then 1 else 0) + countb p l)%nat.
Proof. unfold countb. simpl. destruct (p x); reflexivity. Qed.



End retryProps.




(** ** Sleeps and cancellation *)

Lemma ctxErrAt_before (c : model.Clock) (ca t : Z) :
  model.cancelAt c = Some ca -> t < ca -> model.ctxErrAt c t = None.
Proof.
  intros Hc Ht. unfold model.ctxErrAt. rewrite Hc.
  destruct (Z.leb_spec ca t); [lia | reflexivity].
Qed.

Lemma ctxErrAt_after (c : model.Clock) (ca t : Z) :
  model.cancelAt c = Some ca -> ca <= t -> model.ctxErrAt c t = Some ContextCanceled.
Proof.
  intros Hc Ht. unfold model.ctxErrAt. rewrite Hc.
  destruct (Z.leb_spec ca t); [reflexivity | lia].
Qed.

Section cancelledWhileWaiting.
Context {T : Type} (zeroT : T) (dflt : T * option error).
Variables (t0 ca d : Z) (v : T) (e : error) (rest : list (T * option error)).
Hypothesis started_before : t0 < ca.
Hypothesis cancelled_during : ca < t0 + d.

Let s0 : model.Clock * list (T * option error) :=
  ({| model.now := t0; model.cancelAt := Some ca |}, (v, Some e) :: rest).


End cancelledWhileWaiting.

Section sleepInFull.
Context {St : Type} (dflt : unit * option error).
Variables (t0 ca d : Z) (e : error) (rest : list (unit * option error)).
Hypothesis started_before : t0 < ca.
Hypothesis cancelled_during : ca < t0 + d.

Let s0 : model.Clock * list (unit * option error) :=
  ({| model.now := t0; model.cancelAt := Some ca |}, (tt, Some e) :: rest).


End sleepInFull.




(** ** The scale flow *)

Lemma foldl_snoc_map {A B} (f : A -> B) (l : list A) (init : list B) :
  foldl (fun acc x => acc ++ [f x]) init l = init ++ List.map f l.
Proof.
  revert init. induction l as [|x l IH]; intros init; simpl.
  - rewrite app_nil_r. reflexivity.
  - rewrite IH, <- app_assoc. reflexivity.
Qed.

(** For several records the result is the parallel composition of twice as
    many funcs as there are records: first the nil funcs [make] put there,
    then one func literal per record, bound to it. *)
Lemma createScaleTaskFn_many (E : Type -> Type) (HE : HasRt E) (namespace : string)
    (rs : list prober.scaleableResourceInfo) (mm : prober.mismatchReplicasCheckFn)
    (waitOn : list prober.scaleableResourceInfo) :
  (1 < length rs)%nat ->
  prober.createScaleTaskFn (E := E) namespace rs mm waitOn =
  Ret (flow.Parallel
    (replicate (length rs) flow.NilFn ++
     List.map (fun r => flow.Closure
                 {| prober.clNamespace := namespace;
                    prober.clResourceInfo := r;
                    prober.clMismatchReplicasCheckFn := mm;
                    prober.clWaitOnResourceInfos := waitOn |}) rs)).
Proof.
  intros Hlen. unfold prober.createScaleTaskFn.
  destruct (Nat.eqb_spec (length rs) 0) as [Heq|_]; [lia|].
  destruct (Nat.eqb_spec (length rs) 1) as [Heq|_]; [lia|].
  rewrite foldl_snoc_map. reflexivity.
Qed.

(** C5.  For a single record [createScaleTaskFn] returns slot 0 of
    [taskFns], which [make] filled with a nil func: the result is the nil
    func, not the record's task function.  For N > 1 records it returns the
    parallel composition of 2N funcs, not N: the N nil funcs of [make]
    followed by the N func literals. *)
Theorem createScaleTaskFn_keeps_nil_slots (E : Type -> Type) (HE : HasRt E)
    (namespace : string) (r1 r2 : prober.scaleableResourceInfo)
    (rs : list prober.scaleableResourceInfo)
    (mm : prober.mismatchReplicasCheckFn)
    (waitOn : list prober.scaleableResourceInfo) :
  let literal r := flow.Closure
                     {| prober.clNamespace := namespace;
                        prober.clResourceInfo := r;
                        prober.clMismatchReplicasCheckFn := mm;
                        prober.clWaitOnResourceInfos := waitOn |} in
  prober.createScaleTaskFn (E := E) namespace [r1] mm waitOn = Ret flow.NilFn /\
  prober.createScaleTaskFn (E := E) namespace [r1] mm waitOn <> Ret (literal r1) /\
  exists fns,
    prober.createScaleTaskFn (E := E) namespace (r1 :: r2 :: rs) mm waitOn
      = Ret (flow.Parallel fns) /\
    fns = replicate (length (r1 :: r2 :: rs)) flow.NilFn
          ++ List.map literal (r1 :: r2 :: rs) /\
    length fns = (2 * length (r1 :: r2 :: rs))%nat /\
    fns !! 0%nat = Some flow.NilFn.
Proof.
  cbn zeta. split; [reflexivity|]. split; [discriminate|].
  eexists. split; [apply createScaleTaskFn_many; simpl; lia|].
  split; [reflexivity|]. split.
  - rewrite length_app, length_replicate, length_map. lia.
  - reflexivity.
Qed.

Example createScaleTaskFn_two :
  prober.createScaleTaskFn (E := rtE) "default" [model.mcm; model.kcm]
    ScaleDownReplicasMismatch []
  = Ret (flow.Parallel
           [flow.NilFn; flow.NilFn;
            flow.Closure {| prober.clNamespace := "default";
                            prober.clResourceInfo := model.mcm;
                            prober.clMismatchReplicasCheckFn := ScaleDownReplicasMismatch;
                            prober.clWaitOnResourceInfos := [] |};
            flow.Closure {| prober.clNamespace := "default";
                            prober.clResourceInfo := model.kcm;
                            prober.clMismatchReplicasCheckFn := ScaleDownReplicasMismatch;
                            prober.clWaitOnResourceInfos := [] |}]).
Proof. reflexivity. Qed.



Lemma nilFnsOf_replicate_nil {C} (n : nat) :
  list_sum (List.map (@flow.nilFnsOf C) (replicate n flow.NilFn)) = n.
Proof. induction n as [|n IH]; simpl; [reflexivity | rewrite IH; reflexivity]. Qed.

(** Whatever the records, as long as there is one, the task function holds
    as many nil funcs as there are records. *)
Lemma createScaleTaskFn_nil_funcs (E : Type -> Type) (HE : HasRt E) (namespace : string)
    (rs : list prober.scaleableResourceInfo) (mm : prober.mismatchReplicasCheckFn)
    (waitOn : list prober.scaleableResourceInfo) :
  rs <> [] ->
  exists fn, prober.createScaleTaskFn (E := E) namespace rs mm waitOn = Ret fn /\
    flow.nilFnsOf fn = length rs.
Proof.
  intros Hne. destruct rs as [|r1 [|r2 rs]]; [contradiction | |].
  - exists flow.NilFn. split; reflexivity.
  - eexists. split; [apply createScaleTaskFn_many; simpl; lia|].
    cbn [flow.nilFnsOf]. rewrite List.map_app, list_sum_app, nilFnsOf_replicate_nil.
    rewrite List.map_map. cbn [flow.nilFnsOf].
    generalize (r1 :: r2 :: rs). intros l.
    assert (H0 : list_sum (List.map (fun _ : prober.scaleableResourceInfo => 0%nat) l) = 0%nat)
      by (induction l as [|x l IH]; simpl; [reflexivity | exact IH]).
    rewrite H0. lia.
Qed.

Section flowLoop.
Context {E : Type -> Type} `{!HasRt E} {S : Type} (h : Handler E S).
Variables (namespace : string)
          (ordered : gmap Z (list prober.scaleableResourceInfo))
          (mm : prober.mismatchReplicasCheckFn).
Hypothesis ordered_nonempty : forall l rs, ordered !! l = Some rs -> rs <> [].


End flowLoop.

(** ** Task names *)

Lemma lastWord_no_space (w : string) : words.hasSpace w = false -> words.lastWord w = w.
Proof.
  induction w as [|c w IH]; [reflexivity|]. cbn.
  intros H. apply orb_false_iff in H. destruct H as [Hc Hw].
  rewrite Hw, Hc. reflexivity.
Qed.









(** ** Levels and records by level *)

(** The loop of [sortAndGetUniqueLevels] keeps each level once, and [keys]
    holds the levels kept. *)
Lemma uniqueLevelsLoop_spec (infos : list prober.scaleableResourceInfo) :
  let keys := (prober.uniqueLevelsLoop infos).1 in
  let levels := (prober.uniqueLevelsLoop infos).2 in
  (forall l, is_Some (keys !! l) <-> l ∈ levels) /\
  NoDup levels /\
  (forall l, l ∈ levels <-> exists r, r ∈ infos /\ prober.level r = l).
Proof.
  cbn zeta. unfold prober.uniqueLevelsLoop.
  induction infos as [|r infos IH] using rev_ind.
  - cbn. split; [|split].
    + intros l. rewrite lookup_empty, elem_of_nil. split; [intros [? ?]; discriminate | tauto].
    + constructor.
    + intros l. rewrite elem_of_nil. split; [tauto | intros (r & Hr & _)].
      apply elem_of_nil in Hr. exact Hr.
  - rewrite foldl_snoc.
    destruct (foldl _ _ infos) as [keys levels]. cbn [fst snd] in *.
    destruct IH as (Hk & Hnd & Hl).
    assert (Hmem : forall l, (exists r0, r0 ∈ infos ++ [r] /\ prober.level r0 = l) <->
                             (exists r0, r0 ∈ infos /\ prober.level r0 = l)
                             \/ prober.level r = l).
    { intros l. split.
      - intros (r0 & Hr0 & Hlev). apply elem_of_app in Hr0. destruct Hr0 as [Hr0|Hr0].
        + left. eauto.
        + apply list_elem_of_singleton in Hr0. subst r0. right. exact Hlev.
      - intros [(r0 & Hr0 & Hlev) | Hlev].
        + exists r0. split; [apply elem_of_app; left; exact Hr0 | exact Hlev].
        + exists r. split; [apply elem_of_app; right; apply list_elem_of_singleton;
                           reflexivity | exact Hlev]. }
    destruct (keys !! prober.level r) as [b|] eqn:Hlook; cbn [fst snd].
    + split; [exact Hk|]. split; [exact Hnd|].
      intros l. rewrite Hmem, <- Hl. split; [tauto|].
      intros [H | <-]; [exact H|]. apply Hk. rewrite Hlook. eauto.
    + assert (Hnew : prober.level r ∉ levels).
      { intros Hin. apply Hk in Hin. rewrite Hlook in Hin. destruct Hin; discriminate. }
      split; [|split].
      * intros l. rewrite elem_of_app, list_elem_of_singleton, <- Hk.
        destruct (decide (l = prober.level r)) as [->|Hne].
        -- rewrite lookup_insert_eq. split; [intros _; right; reflexivity | eauto].
        -- rewrite lookup_insert_ne by congruence. split; [tauto | intros [H|H]; [exact H | contradiction]].
      * apply NoDup_app. split; [exact Hnd|]. split; [|apply NoDup_singleton].
        intros x Hx Hx'. apply list_elem_of_singleton in Hx'. subst x. contradiction.
      * intros l. rewrite Hmem, <- Hl, elem_of_app, list_elem_of_singleton.
        split; intros [H|H]; auto.
Qed.

(** The levels of [sortAndGetUniqueLevels]: sorted, without repetition, and
    exactly the levels of the records. *)
Lemma sortAndGetUniqueLevels_spec (infos : list prober.scaleableResourceInfo) :
  let levels := prober.sortAndGetUniqueLevels infos in
  Sorted Z.le levels /\ NoDup levels /\
  (forall l, l ∈ levels <-> exists r, r ∈ infos /\ prober.level r = l).
Proof.
  cbn zeta. unfold prober.sortAndGetUniqueLevels, prober.sortInts.
  destruct (uniqueLevelsLoop_spec infos) as (_ & Hnd & Hl). cbn zeta in Hnd, Hl.
  pose proof (merge_sort_Permutation Z.le (prober.uniqueLevelsLoop infos).2) as Hp.
  split; [apply Sorted_merge_sort; apply _|]. split.
  - rewrite Hp. exact Hnd.
  - intros l. rewrite Hp. apply Hl.
Qed.

(** [collectResourceInfosByLevel] maps a level to the records of that level,
    in their order; a level without records is not a key. *)
Lemma collectResourceInfosByLevel_lookup (infos : list prober.scaleableResourceInfo) (l : Z) :
  prober.collectResourceInfosByLevel infos !! l =
  match List.filter (fun r => prober.level r =? l) infos with
  | [] => None
  | rs => Some rs
  end.
Proof.
  unfold prober.collectResourceInfosByLevel.
  induction infos as [|r infos IH] using rev_ind.
  - cbn. apply lookup_empty.
  - rewrite foldl_snoc, List.filter_app. cbn [List.filter].
    set (m := foldl _ ∅ infos) in *.
    destruct (Z.eqb_spec (prober.level r) l) as [Heq|Hne].
    + subst l. rewrite IH.
      destruct (List.filter _ infos) as [|x rs] eqn:Hf.
      * rewrite lookup_insert_eq. reflexivity.
      * rewrite lookup_insert_eq. reflexivity.
    + rewrite app_nil_r.
      destruct (m !! prober.level r); rewrite lookup_insert_ne by exact Hne; exact IH.
Qed.


Section flowReturns.
Context {E : Type -> Type} `{!HasRt E} {S : Type} (h : Handler E S).
Variables (namespace : string)
          (ordered : gmap Z (list prober.scaleableResourceInfo))
          (mm : prober.mismatchReplicasCheckFn).



End flowReturns.




(** ** The scale action *)

Lemma countb_nil {A} (p : A -> bool) : countb p [] = 0%nat.
Proof. reflexivity. Qed.

Lemma countb_app {A} (p : A -> bool) (l1 l2 : list A) :
  countb p (l1 ++ l2) = (countb p l1 + countb p l2)%nat.
Proof. unfold countb. rewrite List.filter_app, length_app. reflexivity. Qed.

(** In the model cluster only an update of the scale subresource changes the
    stored Deployments. *)
Lemma cluster_frame {A} (p : Prog (sumE rtE k8sE) A) :
  forall cl : model.Cluster,
  countb isScaleWrite (trace model.clusterH p cl) = 0%nat ->
  model.deployments (final model.clusterH p cl) = model.deployments cl.
Proof.
  induction p as [a | msg | | X e k IH]; intros cl Hc; try reflexivity.
  rewrite final_vis. rewrite trace_vis, countb_cons in Hc.
  assert (Hk : countb isScaleWrite
                 (trace model.clusterH (k (model.clusterH X e cl).1)
                    (model.clusterH X e cl).2) = 0%nat) by lia.
  rewrite (IH _ _ Hk).
  destruct e as [r | f].
  - reflexivity.
  - destruct f as [ns name | gk version | ns gr name | ns gr scale]; cbn.
    + destruct (model.deployments cl !! (ns, name)); reflexivity.
    + destruct (String.eqb (schema.gkKind gk) "Deployment"); reflexivity.
    + destruct (model.deployments cl !! (ns, name)); reflexivity.
    + cbn in Hc. lia.
Qed.

Section scaleProps.
Context {S : Type} (h : Handler (sumE rtE k8sE) S).
Variables (namespace : string) (r : prober.scaleableResourceInfo)
          (mm : prober.mismatchReplicasCheckFn)
          (waitOn : list prober.scaleableResourceInfo).

Let fetch : sumE rtE k8sE (appsv1.Deployment + error) :=
  k8s (ClientGetDeployment namespace (autoscalingv1.Name (prober.ref r))).
Let delay : sumE rtE k8sE (option error) := rt (AfterOrDone (prober.initialDelay r)).
Let p : Prog (sumE rtE k8sE) (option error) := prober.scale namespace r mm waitOn.

(** When the fetch fails, [scale] logs the error and returns it; nothing
    else is called. *)
Lemma scale_fetch_failed (s : S) (e : error) :
  (h _ fetch s).1 = inr e ->
  result h p s = Returned (Some e) /\
  countb isScaleWrite (trace h p s) = 0%nat /\
  countb isLogError (trace h p s) = 1%nat /\
  length (trace h p s) = 2%nat.
Proof.
  intros Hf. unfold p, prober.scale, GetDeploymentFor.
  cbn [bind call]. step_run. fold fetch. rewrite Hf.
  cbn [bind call]. step_run. rewrite !countb_cons, !countb_nil.
  cbn. repeat split.
Qed.

(** When the deployment carries the ignore-scaling annotation, or its spec
    replicas are not a mismatch, [scale] fetches, waits the initial delay,
    logs, and returns what the wait returned. *)
Lemma scale_skipped (s : S) (d : appsv1.Deployment) :
  (h _ fetch s).1 = inl d ->
  (prober.isIgnoreScalingAnnotationSet d = true \/
   exists n, appsv1.SpecReplicas d = Some n /\ mm n (prober.replicas r) = false) ->
  result h p s = Returned (h _ delay (h _ fetch s).2).1 /\
  countb isScaleWrite (trace h p s) = 0%nat.
Proof.
  intros Hf Hskip. unfold p, prober.scale, GetDeploymentFor, SleepWithContext.
  cbn [bind call]. step_run. fold fetch. rewrite Hf.
  cbn [bind call]. step_run. fold delay.
  destruct (h _ delay (h _ fetch s).2) as [[err|] s2] eqn:Hd; cbn [fst snd bind call].
  - step_run. rewrite !countb_cons, !countb_nil. cbn. split; reflexivity.
  - unfold prober.shouldScale.
    destruct (prober.isIgnoreScalingAnnotationSet d) eqn:Hi.
    + cbn [bind call]. step_run. rewrite !countb_cons, !countb_nil. cbn.
      split; reflexivity.
    + destruct Hskip as [Habs | (n & Hn & Hm)]; [discriminate Habs|].
      rewrite Hn, Hm. cbn [negb bind call]. step_run.
      rewrite !countb_cons, !countb_nil. cbn. split; reflexivity.
Qed.

End scaleProps.


Lemma cluster_fetch (cl : model.Cluster) (namespace name : string) (d : appsv1.Deployment) :
  model.deployments cl !! (namespace, name) = Some d ->
  model.clusterH _ (inrE (ClientGetDeployment namespace name)) cl = (inl d, cl).
Proof. intros H. cbn. rewrite H. reflexivity. Qed.




(** Reads and logs leave the model cluster as it is. *)
Lemma cluster_fetch_absent (cl : model.Cluster) (namespace name : string) :
  model.deployments cl !! (namespace, name) = None ->
  model.clusterH _ (inrE (ClientGetDeployment namespace name)) cl
    = (inr (StatusNotFound name), cl).
Proof. intros H. cbn. rewrite H. reflexivity. Qed.

Lemma cluster_log (cl : model.Cluster) (X : Type) (e : rtE X) :
  match e with LogError _ _ | LogInfo _ _ => True | _ => False end ->
  (model.clusterH X (inlE e) cl).2 = cl.
Proof. destruct e; try contradiction; intros _; destruct cl; reflexivity. Qed.

(** The barrier: when a workload of the wait-on set is missing, or its
    status replicas still mismatch its target, the loop of [shouldScale]
    answers false. *)
Lemma waitOnLoop_blocked (namespace : string) (mm : prober.mismatchReplicasCheckFn)
    (waitOn : list prober.scaleableResourceInfo) (cl : model.Cluster) :
  Exists (fun u =>
            match model.deployments cl !! (namespace, autoscalingv1.Name (prober.ref u)) with
            | None => True
            | Some d => mm (appsv1.StatusReplicas d) (prober.replicas u) = true
            end) waitOn ->
  result model.clusterH (prober.waitOnLoop namespace mm waitOn) cl = Returned false /\
  countb isScaleWrite (trace model.clusterH (prober.waitOnLoop namespace mm waitOn) cl)
    = 0%nat.
Proof.
  induction waitOn as [|u waitOn IH]; intros Hex.
  - inversion Hex.
  - cbn [prober.waitOnLoop GetDeploymentFor bind call]. step_run.
    change (k8s (ClientGetDeployment ?a ?b)) with (@inrE rtE k8sE _ (ClientGetDeployment a b)).
    destruct (model.deployments cl !! (namespace, autoscalingv1.Name (prober.ref u)))
      as [d|] eqn:Hl.
    + rewrite (cluster_fetch cl _ _ d Hl). cbn [fst snd].
      destruct (mm (appsv1.StatusReplicas d) (prober.replicas u)) eqn:Hm.
      * cbn [bind call]. step_run. rewrite !countb_cons, countb_nil. cbn.
        split; reflexivity.
      * rewrite countb_cons. cbn [isScaleWrite]. cbn [Nat.add].
        apply IH. inversion Hex as [? ? Hu | ? ? Hrest]; subst.
        -- rewrite Hl in Hu. congruence.
        -- exact Hrest.
    + rewrite (cluster_fetch_absent cl _ _ Hl). cbn [fst snd bind call]. step_run.
      rewrite !countb_cons, countb_nil. cbn. split; reflexivity.
Qed.

(** With such a workload in its wait-on set, the scale action issues no
    scale update. *)
Lemma scale_barrier (namespace : string) (r : prober.scaleableResourceInfo)
    (mm : prober.mismatchReplicasCheckFn)
    (waitOn : list prober.scaleableResourceInfo) (cl : model.Cluster) :
  Exists (fun u =>
            match model.deployments cl !! (namespace, autoscalingv1.Name (prober.ref u)) with
            | None => True
            | Some d => mm (appsv1.StatusReplicas d) (prober.replicas u) = true
            end) waitOn ->
  countb isScaleWrite (trace model.clusterH (prober.scale namespace r mm waitOn) cl) = 0%nat.
Proof.
  intros Hex. unfold prober.scale, GetDeploymentFor, SleepWithContext.
  cbn [bind call]. step_run.
  change (k8s (ClientGetDeployment ?a ?b)) with (@inrE rtE k8sE _ (ClientGetDeployment a b)).
  destruct (model.deployments cl !! (namespace, autoscalingv1.Name (prober.ref r)))
    as [d|] eqn:Hl.
  - rewrite (cluster_fetch cl _ _ d Hl). cbn [fst snd bind call]. step_run.
    set (cl1 := (model.clusterH _ (rt (AfterOrDone (prober.initialDelay r))) cl).2).
    assert (Hds : model.deployments cl1 = model.deployments cl) by reflexivity.
    destruct (model.clusterH _ (rt (AfterOrDone (prober.initialDelay r))) cl).1 as [err|].
    + cbn [bind call]. step_run. rewrite !countb_cons, countb_nil. reflexivity.
    + unfold prober.shouldScale.
      destruct (prober.isIgnoreScalingAnnotationSet d).
      * cbn [bind call]. step_run. rewrite !countb_cons, countb_nil. reflexivity.
      * destruct (appsv1.SpecReplicas d) as [n|].
        -- destruct (mm n (prober.replicas r)); cbn [negb].
           ++ destruct (waitOnLoop_blocked namespace mm waitOn cl1) as [Hres Hw].
              { rewrite Hds. exact Hex. }
              rewrite (trace_bind_returned _ _ _ _ _ Hres).
              rewrite !countb_cons, countb_app, Hw. reflexivity.
           ++ cbn [bind call]. step_run. rewrite !countb_cons, countb_nil. reflexivity.
        -- cbn [bind]. rewrite !countb_cons. reflexivity.
  - rewrite (cluster_fetch_absent cl _ _ Hl). cbn [fst snd bind call]. step_run.
    rewrite !countb_cons, countb_nil. reflexivity.
Qed.

(** What the empty wait-on set of the compiled flow means: the level-1
    workload is scaled down although a level-0 workload still runs a replica;
    with the level-0 records as its wait-on set it would not be. *)
Example barrier_not_enforced :
  let cl := model.clusterOf
              [model.deployment "machine-controller-manager" ∅ 0 1;
               model.deployment "kube-controller-manager" ∅ 0 0;
               model.deployment "cluster-autoscaler" ∅ 1 1] in
  countb isScaleWrite
    (trace model.clusterH
       (prober.scale "default" model.ca ScaleDownReplicasMismatch []) cl) = 1%nat /\
  countb isScaleWrite
    (trace model.clusterH
       (prober.scale "default" model.ca ScaleDownReplicasMismatch
          [model.mcm; model.kcm]) cl) = 0%nat.
Proof. cbn zeta. split; vm_compute; reflexivity. Qed.

(** C3 (amended).  For every record and every handler: when the fetch of
    the workload named [r.ref.name] answers with an error, not-found
    included, the scale action logs it, returns that error and issues no
    scale write. *)
Theorem scale_returns_fetch_error {S : Type} (h : Handler (sumE rtE k8sE) S)
    (namespace : string) (r : prober.scaleableResourceInfo)
    (mm : prober.mismatchReplicasCheckFn)
    (waitOn : list prober.scaleableResourceInfo) (s : S) (e : error) :
  (h _ (inrE (ClientGetDeployment namespace (autoscalingv1.Name (prober.ref r)))) s).1
    = inr e ->
  let p := prober.scale namespace r mm waitOn in
  result h p s = Returned (Some e) /\
  countb isScaleWrite (trace h p s) = 0%nat /\
  countb isLogError (trace h p s) = 1%nat.
Proof.
  intros Hf. cbn zeta.
  destruct (scale_fetch_failed h namespace r mm waitOn s e Hf) as (H1 & H2 & H3 & _).
  repeat split; assumption.
Qed.

Lemma scale_returns_fetch_error_witness :
  let cl := model.clusterOf [] in
  let e := StatusNotFound "machine-controller-manager" in
  let p := prober.scale "default" model.mcm ScaleDownReplicasMismatch [] in
  (model.clusterH _ (inrE (ClientGetDeployment "default" "machine-controller-manager")) cl).1
    = inr e /\
  (result model.clusterH p cl = Returned (Some e) /\
   countb isScaleWrite (trace model.clusterH p cl) = 0%nat /\
   countb isLogError (trace model.clusterH p cl) = 1%nat).
Proof.
  split; [reflexivity|].
  apply (scale_returns_fetch_error model.clusterH "default" model.mcm
           ScaleDownReplicasMismatch [] (model.clusterOf [])
           (StatusNotFound "machine-controller-manager")).
  reflexivity.
Defined.

(** C3, as stated, fails: in a cluster without the workload the fetch
    answers not-found, and the scale action returns that error, not success;
    the task function built on it retries and returns the error too. *)
Lemma scale_not_found_is_not_success :
  let cl := model.clusterOf [] in
  let e := StatusNotFound "machine-controller-manager" in
  (model.clusterH _ (inrE (ClientGetDeployment "default" "machine-controller-manager")) cl).1
    = inr e /\
  IsNotFound e = true /\
  result model.clusterH
    (prober.scale "default" model.mcm ScaleDownReplicasMismatch []) cl
    <> Returned None /\
  result model.clusterH
    (prober.scale "default" model.mcm ScaleDownReplicasMismatch []) cl
    = Returned (Some e) /\
  result model.clusterH
    (prober.scaleTaskFn (100 * Millisecond)
       {| prober.clNamespace := "default"; prober.clResourceInfo := model.mcm;
          prober.clMismatchReplicasCheckFn := ScaleDownReplicasMismatch;
          prober.clWaitOnResourceInfos := [] |}) cl
    = Returned (Some e).
Proof.
  cbn zeta. split; [reflexivity|]. split; [reflexivity|].
  split; [vm_compute; discriminate|].
  split; vm_compute; reflexivity.
Qed.



(** Both mismatch predicates are false when the replicas equal the target. *)
Lemma mismatch_false_at_equality (mm : prober.mismatchReplicasCheckFn) (n : Z) :
  mm = ScaleUpReplicasMismatch \/ mm = ScaleDownReplicasMismatch ->
  mm n n = false.
Proof.
  intros [-> | ->].
  - unfold ScaleUpReplicasMismatch. apply Z.ltb_irrefl.
  - unfold ScaleDownReplicasMismatch. rewrite Z.gtb_ltb. apply Z.ltb_irrefl.
Qed.

(** C7.  For every record and both directions: when the spec replicas of the
    fetched workload equal the target replicas, the mismatch predicate is
    false and the scale action performs no scale update.  In the model
    cluster: once a run of the action has left the workload's spec replicas
    at the target, a further run performs no update and leaves the stored
    Deployments as they are. *)
Theorem scale_at_target_writes_nothing (namespace : string)
    (r : prober.scaleableResourceInfo) (mm : prober.mismatchReplicasCheckFn)
    (waitOn : list prober.scaleableResourceInfo) :
  mm = ScaleUpReplicasMismatch \/ mm = ScaleDownReplicasMismatch ->
  let name := autoscalingv1.Name (prober.ref r) in
  let p := prober.scale namespace r mm waitOn in
  mm (prober.replicas r) (prober.replicas r) = false /\
  (forall (S : Type) (h : Handler (sumE rtE k8sE) S) (s : S) (d : appsv1.Deployment),
     (h _ (inrE (ClientGetDeployment namespace name)) s).1 = inl d ->
     appsv1.SpecReplicas d = Some (prober.replicas r) ->
     countb isScaleWrite (trace h p s) = 0%nat) /\
  (forall (cl : model.Cluster) (d1 : appsv1.Deployment),
     let cl1 := final model.clusterH p cl in
     model.deployments cl1 !! (namespace, name) = Some d1 ->
     appsv1.SpecReplicas d1 = Some (prober.replicas r) ->
     countb isScaleWrite (trace model.clusterH p cl1) = 0%nat /\
     model.deployments (final model.clusterH p cl1) = model.deployments cl1).
Proof.
  intros Hmm. cbn zeta.
  pose proof (mismatch_false_at_equality mm (prober.replicas r) Hmm) as Heq.
  assert (Hgen : forall (S : Type) (h : Handler (sumE rtE k8sE) S) (s : S)
                        (d : appsv1.Deployment),
     (h _ (inrE (ClientGetDeployment namespace (autoscalingv1.Name (prober.ref r)))) s).1
       = inl d ->
     appsv1.SpecReplicas d = Some (prober.replicas r) ->
     countb isScaleWrite (trace h (prober.scale namespace r mm waitOn) s) = 0%nat).
  { intros S h s d Hf Hd.
    destruct (scale_skipped h namespace r mm waitOn s d Hf) as (_ & Hw); [|exact Hw].
    right. exists (prober.replicas r). split; [exact Hd | exact Heq]. }
  split; [exact Heq|]. split; [exact Hgen|].
  intros cl d1 Hl Hd.
  assert (Hw : countb isScaleWrite
                 (trace model.clusterH (prober.scale namespace r mm waitOn)
                    (final model.clusterH (prober.scale namespace r mm waitOn) cl)) = 0%nat).
  { apply (Hgen _ model.clusterH _ d1); [|exact Hd].
    rewrite (cluster_fetch _ _ _ d1 Hl). reflexivity. }
  split; [exact Hw | apply cluster_frame, Hw].
Qed.

(** A workload with one replica is scaled down to zero by a first run, which
    issues one update; the second run finds it at the target. *)
Lemma scale_at_target_writes_nothing_witness :
  let cl := model.clusterOf [model.deployment "machine-controller-manager" ∅ 1 1] in
  let p := prober.scale "default" model.mcm ScaleDownReplicasMismatch [] in
  let cl1 := final model.clusterH p cl in
  (ScaleDownReplicasMismatch = ScaleUpReplicasMismatch \/
   ScaleDownReplicasMismatch = ScaleDownReplicasMismatch) /\
  countb isScaleWrite (trace model.clusterH p cl) = 1%nat /\
  model.deployments cl1 !! ("default", "machine-controller-manager")
    = Some (model.deployment "machine-controller-manager" ∅ 0 1) /\
  countb isScaleWrite (trace model.clusterH p cl1) = 0%nat /\
  model.deployments (final model.clusterH p cl1) = model.deployments cl1.
Proof.
  cbn zeta. split; [right; reflexivity|].
  split; [vm_compute; reflexivity|].
  assert (Hl : model.deployments
                 (final model.clusterH
                    (prober.scale "default" model.mcm ScaleDownReplicasMismatch [])
                    (model.clusterOf [model.deployment "machine-controller-manager" ∅ 1 1]))
               !! ("default", "machine-controller-manager")
               = Some (model.deployment "machine-controller-manager" ∅ 0 1))
    by (vm_compute; reflexivity).
  split; [exact Hl|].
  destruct (scale_at_target_writes_nothing "default" model.mcm
              ScaleDownReplicasMismatch [] (or_intror eq_refl)) as (_ & _ & Hcl).
  apply (Hcl _ _ Hl). reflexivity.
Defined.

(** ** The pod watcher *)

Lemma canProcessEvent_iff (ev : watch.Event) :
  weeder.canProcessEvent ev = true <->
  (watch.Type_ ev = watch.Added \/ watch.Type_ ev = watch.Modified) /\
  exists pod, watch.Object_ ev = watch.PodObject pod.
Proof.
  unfold weeder.canProcessEvent. split.
  - intros H.
    destruct (String.eqb_spec (watch.Type_ ev) watch.Added) as [Ha|Ha];
    destruct (String.eqb_spec (watch.Type_ ev) watch.Modified) as [Hm|Hm];
    cbn in H; try discriminate H;
    (split; [tauto|]);
    (destruct (watch.Object_ ev) as [pod|kind]; [eexists; reflexivity | discriminate H]).
  - intros [Ht [pod Ho]]. rewrite Ho.
    destruct Ht as [Ht|Ht]; rewrite Ht.
    + reflexivity.
    + reflexivity.
Qed.




Section watcherProps.
Context {S : Type} (h : Handler (sumE rtE weederE) S).





End watcherProps.


(** A run of the watcher: a Modified event for a crash-looping pod is
    handled, the Deleted event for the same pod and an Added event for
    another kind of object are not; when the context ends the watch is
    stopped and [watch] returns. *)
Example watch_run :
  let pod := {| watch.Namespace := "shoot--dev--a"; watch.Name := "kube-apiserver-0" |} in
  let w0 :=
    {| model.wclock := {| model.now := 0; model.cancelAt := Some (100 * Millisecond) |};
       model.creations := [inl 1];
       model.inbox :=
         [SelEvent {| watch.Type_ := watch.Modified; watch.Object_ := watch.PodObject pod |};
          SelEvent {| watch.Type_ := watch.Deleted; watch.Object_ := watch.PodObject pod |};
          SelEvent {| watch.Type_ := watch.Added;
                      watch.Object_ := watch.OtherObject "Status" |}];
       model.handled := [] |} in
  let pw := {| weeder.selector := "app=kube-apiserver"; weeder.k8sWatch := None;
               weeder.weeder := {| weeder.namespace := "shoot--dev--a";
                                   weeder.endpointsName := "etcd-main" |} |} in
  result model.watchH (weeder.watch 10 10 pw) w0 = Returned tt /\
  model.handled (final model.watchH (weeder.watch 10 10 pw) w0)
    = [{| nnNamespace := "shoot--dev--a"; nnName := "kube-apiserver-0" |}].
Proof. cbn zeta. split; vm_compute; reflexivity. Qed.

(** ** The validator *)

(** C10.  For a non-nil pointer, [MustBeGreaterThan] returns true iff the
    value pointed to is at least [lowerLimit]; it returns true and leaves
    the validator as it is when the value equals [lowerLimit]; when it
    returns false it has appended one error to the validator.  On a nil
    pointer it panics. *)
Theorem MustBeGreaterThan_accepts_at_least (E : Type -> Type)
    (v : prober.validator) (key : string) (p : prober.intPtr) (lowerLimit : Z) :
  (exists (b : bool) (v' : prober.validator),
     prober.MustBeGreaterThan (E := E) v key (Some p) lowerLimit = Ret (b, v') /\
     (b = true <-> lowerLimit <= prober.pointee p) /\
     (b = true -> v' = v) /\
     (b = false -> exists e, prober.verror v' = prober.verror v ++ [e]) /\
     (prober.pointee p = lowerLimit -> b = true /\ v' = v)) /\
  (exists msg, prober.MustBeGreaterThan (E := E) v key None lowerLimit = Panic msg).
Proof.
  split; [|eexists; reflexivity].
  unfold prober.MustBeGreaterThan.
  destruct (Z.ltb_spec (prober.pointee p) lowerLimit) as [Hlt|Hge].
  - eexists false, _. split; [reflexivity|].
    split; [split; [discriminate | lia]|].
    split; [discriminate|].
    split; [intros _; eexists; reflexivity | lia].
  - exists true, v. split; [reflexivity|].
    split; [split; [intros _; exact Hge | reflexivity]|].
    split; [reflexivity|].
    split; [discriminate | intros _; split; reflexivity].
Qed.

Example MustBeGreaterThan_at_the_limit :
  prober.MustBeGreaterThan (E := model.voidE) {| prober.verror := [] |} "successThreshold"
    (Some {| prober.address := 824634343424; prober.pointee := 1 |}) 1
  = Ret (true, {| prober.verror := [] |}) /\
  prober.MustBeGreaterThan (E := model.voidE) {| prober.verror := [] |} "successThreshold"
    (Some {| prober.address := 824634343424; prober.pointee := 0 |}) 1
  = Ret (false,
         {| prober.verror :=
              [Errorf "successThreshold must have a value greater than 1. Found value 824634343424"] |}).
Proof. split; vm_compute; reflexivity. Qed.

(** * Further properties of the code *)

(** A sequence whose first part does not return ends there. *)
Lemma bind_out_of_fuel {E S A B} (h : Handler E S) (p : Prog E A) (f : A -> Prog E B) (s : S) :
  result h p s = OutOfFuel ->
  result h (bind p f) s = OutOfFuel /\ trace h (bind p f) s = trace h p s.
Proof. intros Hr. unfold result at 1, trace at 1. rewrite run_bind, Hr. split; reflexivity. Qed.

Lemma bind_panicked {E S A B} (h : Handler E S) (p : Prog E A) (f : A -> Prog E B) (s : S) msg :
  result h p s = Panicked msg ->
  result h (bind p f) s = Panicked msg /\ trace h (bind p f) s = trace h p s.
Proof. intros Hr. unfold result at 1, trace at 1. rewrite run_bind, Hr. split; reflexivity. Qed.

(** ** Levels and grouping *)

Lemma StronglySorted_le_NoDup_lt (l : list Z) :
  StronglySorted Z.le l -> NoDup l -> StronglySorted Z.lt l.
Proof.
  induction 1 as [|x l Hs IH Hall]; intros Hnd; [constructor|].
  apply NoDup_cons in Hnd. destruct Hnd as [Hx Hnd].
  constructor; [apply IH, Hnd|].
  rewrite Forall_forall in Hall. apply Forall_forall. intros y Hy.
  assert (x <> y) by (intros ->; apply Hx, Hy).
  specialize (Hall y Hy). lia.
Qed.

(** X1.  [sortAndGetUniqueLevels] returns the levels that occur in the
    records, each once, in strictly increasing order; for no records it
    returns the nil slice. *)
Theorem sortAndGetUniqueLevels_strictly_increasing
    (infos : list prober.scaleableResourceInfo) :
  StronglySorted Z.lt (prober.sortAndGetUniqueLevels infos) /\
  (forall l, l ∈ prober.sortAndGetUniqueLevels infos <->
             exists r, r ∈ infos /\ prober.level r = l) /\
  prober.sortAndGetUniqueLevels [] = [].
Proof.
  destruct (sortAndGetUniqueLevels_spec infos) as (_ & Hnd & Hl). cbn zeta in Hnd, Hl.
  split; [|split; [exact Hl | reflexivity]].
  apply StronglySorted_le_NoDup_lt; [|exact Hnd].
  unfold prober.sortAndGetUniqueLevels, prober.sortInts.
  apply StronglySorted_merge_sort; apply _.
Qed.

Lemma filter_level_cons (x : prober.scaleableResourceInfo)
    (infos : list prober.scaleableResourceInfo) (l : Z) :
  List.filter (fun r => prober.level r =? l) (x :: infos) =
  if prober.level x =? l then x :: List.filter (fun r => prober.level r =? l) infos
  else List.filter (fun r => prober.level r =? l) infos.
Proof. reflexivity. Qed.

Lemma groups_absent (x : prober.scaleableResourceInfo)
    (infos : list prober.scaleableResourceInfo) (L : list Z) :
  prober.level x ∉ L ->
  concat (List.map (fun l => List.filter (fun r => prober.level r =? l) (x :: infos)) L)
  = concat (List.map (fun l => List.filter (fun r => prober.level r =? l) infos) L).
Proof.
  induction L as [|l L IH]; intros Hn; [reflexivity|].
  apply not_elem_of_cons in Hn. destruct Hn as [Hne Hn].
  cbn [List.map concat]. rewrite filter_level_cons.
  destruct (Z.eqb_spec (prober.level x) l) as [Heq|_]; [contradiction|].
  rewrite (IH Hn). reflexivity.
Qed.

Lemma groups_cons (x : prober.scaleableResourceInfo)
    (infos : list prober.scaleableResourceInfo) (L : list Z) :
  NoDup L -> prober.level x ∈ L ->
  concat (List.map (fun l => List.filter (fun r => prober.level r =? l) (x :: infos)) L)
  ≡ₚ x :: concat (List.map (fun l => List.filter (fun r => prober.level r =? l) infos) L).
Proof.
  induction L as [|l L IH]; intros Hnd Hin.
  - apply elem_of_nil in Hin. destruct Hin.
  - apply NoDup_cons in Hnd. destruct Hnd as [Hl Hnd].
    cbn [List.map concat]. rewrite filter_level_cons.
    destruct (Z.eqb_spec (prober.level x) l) as [Heq|Hne].
    + subst l. rewrite (groups_absent x infos L Hl). reflexivity.
    + apply elem_of_cons in Hin. destruct Hin as [Hin|Hin]; [contradiction|].
      rewrite (IH Hnd Hin). symmetry. apply Permutation_middle.
Qed.

Lemma groups_partition (infos : list prober.scaleableResourceInfo) (L : list Z) :
  NoDup L -> (forall r, r ∈ infos -> prober.level r ∈ L) ->
  concat (List.map (fun l => List.filter (fun r => prober.level r =? l) infos) L) ≡ₚ infos.
Proof.
  intros Hnd. induction infos as [|x infos IH]; intros Hcov.
  - clear Hnd Hcov. induction L as [|l L IHL]; [reflexivity | exact IHL].
  - rewrite groups_cons; [|exact Hnd|apply Hcov, elem_of_cons; left; reflexivity].
    constructor. apply IH. intros r Hr. apply Hcov, elem_of_cons. right. exact Hr.
Qed.

(** X2.  [collectResourceInfosByLevel] maps a level to the records of that
    level, in the order of the input; a level that no record has is not a key
    and no key holds an empty slice; taken in the order of the sorted levels,
    the groups hold every record exactly once. *)
Theorem collectResourceInfosByLevel_partition
    (infos : list prober.scaleableResourceInfo) :
  let m := prober.collectResourceInfosByLevel infos in
  (forall l rs, m !! l = Some rs <->
     rs <> [] /\ rs = List.filter (fun r => prober.level r =? l) infos) /\
  (forall l, m !! l = None <-> forall r, r ∈ infos -> prober.level r <> l) /\
  concat (List.map (fun l => default [] (m !! l)) (prober.sortAndGetUniqueLevels infos))
    ≡ₚ infos.
Proof.
  cbn zeta. split; [|split].
  - intros l rs. rewrite collectResourceInfosByLevel_lookup.
    destruct (List.filter _ infos) as [|x xs]; split.
    + discriminate.
    + intros [Hne ->]. contradiction.
    + intros [= <-]. split; [discriminate | reflexivity].
    + intros [_ ->]. reflexivity.
  - intros l. rewrite collectResourceInfosByLevel_lookup. split.
    + intros Hnone r Hr Hl.
      assert (Hin : In r (List.filter (fun r => prober.level r =? l) infos)).
      { apply filter_In. split; [apply list_elem_of_In, Hr | apply Z.eqb_eq, Hl]. }
      destruct (List.filter _ infos); [destruct Hin | discriminate].
    + intros Hall. destruct (List.filter _ infos) as [|x xs] eqn:Hf; [reflexivity|].
      assert (Hin : In x (List.filter (fun r => prober.level r =? l) infos))
        by (rewrite Hf; left; reflexivity).
      apply filter_In in Hin. destruct Hin as [Hin Hl].
      exfalso. apply (Hall x); [apply list_elem_of_In, Hin | apply Z.eqb_eq, Hl].
  - destruct (sortAndGetUniqueLevels_spec infos) as (_ & Hnd & Hl). cbn zeta in Hnd, Hl.
    erewrite map_ext.
    + apply groups_partition; [exact Hnd|]. intros r Hr. apply Hl. eauto.
    + intros l. cbn beta. rewrite collectResourceInfosByLevel_lookup.
      destruct (List.filter _ infos); reflexivity.
Qed.

(** ** Building the flows *)



Section flattening.
Context {E : Type -> Type}.

Lemma scaleUpInfosLoop_spec (deps : list prober.DependentResourceInfo) :
  forall acc : list prober.scaleableResourceInfo,
  prober.scaleUpInfosLoop (E := E) deps acc =
  match mapM (fun dep => flattenScaleInfo (prober.Ref dep) (prober.ScaleUpInfo dep)) deps with
  | Some infos => Ret (acc ++ infos)
  | None => Panic prober.nilDeref
  end.
Proof.
  unfold flattenScaleInfo. induction deps as [|dep deps IH]; intros acc.
  - cbn. rewrite app_nil_r. reflexivity.
  - cbn [prober.scaleUpInfosLoop mapM].
    destruct (prober.ScaleUpInfo dep) as [info|]; [|reflexivity].
    destruct (prober.InitialDelay info) as [d|]; [|reflexivity].
    destruct (prober.Timeout info) as [t|]; [|reflexivity].
    destruct (prober.Replicas info) as [n|]; [|reflexivity].
    rewrite IH. cbn.
    destruct (mapM _ deps); cbn; [rewrite <- app_assoc|]; reflexivity.
Qed.

Lemma scaleDownInfosLoop_spec (deps : list prober.DependentResourceInfo) :
  forall acc : list prober.scaleableResourceInfo,
  prober.scaleDownInfosLoop (E := E) deps acc =
  match mapM (fun dep => flattenScaleInfo (prober.Ref dep) (prober.ScaleDownInfo dep)) deps with
  | Some infos => Ret (acc ++ infos)
  | None => Panic prober.nilDeref
  end.
Proof.
  unfold flattenScaleInfo. induction deps as [|dep deps IH]; intros acc.
  - cbn. rewrite app_nil_r. reflexivity.
  - cbn [prober.scaleDownInfosLoop mapM].
    destruct (prober.ScaleDownInfo dep) as [info|]; [|reflexivity].
    destruct (prober.InitialDelay info) as [d|]; [|reflexivity].
    destruct (prober.Timeout info) as [t|]; [|reflexivity].
    destruct (prober.Replicas info) as [n|]; [|reflexivity].
    rewrite IH. cbn.
    destruct (mapM _ deps); cbn; [rewrite <- app_assoc|]; reflexivity.
Qed.

End flattening.

Lemma flattenScaleInfo_flattened (dir : prober.DependentResourceInfo -> option prober.ScaleInfo)
    (dep : prober.DependentResourceInfo) (info : prober.scaleableResourceInfo) :
  flattenScaleInfo (prober.Ref dep) (dir dep) = Some info <-> flattened dir dep info.
Proof.
  unfold flattenScaleInfo, flattened. split.
  - destruct (dir dep) as [si|]; [|discriminate].
    destruct (prober.InitialDelay si) eqn:H1, (prober.Timeout si) eqn:H2,
             (prober.Replicas si) eqn:H3; try discriminate.
    intros [= <-]. exists si. cbn. repeat split; assumption.
  - intros (si & -> & Hr & Hl & -> & -> & ->).
    destruct info as [r l d t n]. cbn in *. subst. reflexivity.
Qed.

Lemma flattened_Forall2 (dir : prober.DependentResourceInfo -> option prober.ScaleInfo)
    (deps : list prober.DependentResourceInfo) (infos : list prober.scaleableResourceInfo) :
  mapM (fun dep => flattenScaleInfo (prober.Ref dep) (dir dep)) deps = Some infos <->
  Forall2 (flattened dir) deps infos.
Proof.
  rewrite mapM_Some. split; intros H; (eapply Forall2_impl; [exact H|]);
    intros dep info Hf; apply flattenScaleInfo_flattened; exact Hf.
Qed.

Lemma flattened_levels (dir : prober.DependentResourceInfo -> option prober.ScaleInfo)
    (deps : list prober.DependentResourceInfo) (infos : list prober.scaleableResourceInfo) :
  Forall2 (flattened dir) deps infos ->
  List.map prober.level infos = configuredLevels dir deps /\
  List.map prober.ref infos = List.map prober.Ref deps.
Proof.
  unfold configuredLevels. induction 1 as [|dep info deps infos Hf _ [IH1 IH2]].
  - split; reflexivity.
  - destruct Hf as (si & Hd & Hr & Hl & _). cbn. rewrite Hd. cbn.
    rewrite Hl, Hr, IH2. split; [|reflexivity]. f_equal. exact IH1.
Qed.

(** X4.  [createScaleUpResourceInfos] and [createScaleDownResourceInfos]
    return exactly when no pointer they read is nil, and then the result is
    the flattening of the dependent resources, one record each, in their
    order: the reference is kept and level, initial delay, timeout and
    replicas are those of the direction's [ScaleInfo].  When a pointer is nil
    they panic. *)
Theorem createScaleResourceInfos_flatten (E : Type -> Type)
    (deps : list prober.DependentResourceInfo) :
  let up := prober.createScaleUpResourceInfos (E := E) deps in
  let down := prober.createScaleDownResourceInfos (E := E) deps in
  (forall infos, up = Ret infos <-> Forall2 (flattened prober.ScaleUpInfo) deps infos) /\
  (forall infos, down = Ret infos <-> Forall2 (flattened prober.ScaleDownInfo) deps infos) /\
  (forall infos, up = Ret infos \/ down = Ret infos ->
     length infos = length deps /\
     List.map prober.ref infos = List.map prober.Ref deps) /\
  ((forall infos, up <> Ret infos) -> up = Panic prober.nilDeref) /\
  ((forall infos, down <> Ret infos) -> down = Panic prober.nilDeref).
Proof.
  cbn zeta. unfold prober.createScaleUpResourceInfos, prober.createScaleDownResourceInfos.
  rewrite scaleUpInfosLoop_spec, scaleDownInfosLoop_spec.
  assert (Hiff : forall dir infos,
    match mapM (fun dep => flattenScaleInfo (prober.Ref dep) (dir dep)) deps with
    | Some infos0 => @Ret E _ ([] ++ infos0)
    | None => Panic prober.nilDeref
    end = Ret infos <-> Forall2 (flattened dir) deps infos).
  { intros dir infos. rewrite <- flattened_Forall2.
    destruct (mapM _ deps) as [k|]; cbn; split; intros H; congruence. }
  split; [apply Hiff|]. split; [apply Hiff|]. split; [|split].
  - intros infos [H|H]; apply Hiff in H;
      (split; [symmetry; exact (Forall2_length _ _ _ H) | apply (flattened_levels _ _ _ H)]).
  - destruct (mapM _ deps) as [k|]; [|reflexivity]. intros H. destruct (H ([] ++ k)). reflexivity.
  - destruct (mapM (fun dep => flattenScaleInfo (prober.Ref dep) (prober.ScaleDownInfo dep)) deps)
      as [k|]; [|reflexivity].
    intros H. destruct (H ([] ++ k)). reflexivity.
Qed.




Example NewDeploymentScaler_test_config :
  exists ds,
    result model.rtH (prober.NewDeploymentScaler "default" (Some model.probeConfig))
      model.clock0 = Returned ds /\
    flow.Len (prober.scaleDownFlow ds) = 2%nat /\
    flow.Len (prober.scaleUpFlow ds) = 3%nat.
Proof. eexists. split; [vm_compute; reflexivity|]. split; vm_compute; reflexivity. Qed.

(** ** The retry helpers *)

(** X6.  [Retry] makes no attempt in two cases.  With [numAttempts <= 0] it
    calls nothing at all, not even the context, and returns the zero value
    with a nil error.  With [numAttempts >= 1] and a context that is already
    done, it logs, and returns the context's error without calling the
    function and without waiting. *)
Theorem Retry_without_attempt {T S : Type} (zeroT : T)
    (h : Handler (sumE rtE (model.fnE T)) S) (operation : string)
    (fn : Prog (sumE rtE (model.fnE T)) (T * option error))
    (numAttempts : Z) (backOff : Duration) (canRetry : error -> bool) (s : S) :
  let p := util.Retry zeroT operation fn numAttempts backOff canRetry in
  (numAttempts <= 0 ->
   run h p s = (Returned (util.mkRetryResult zeroT None), s, [])) /\
  (1 <= numAttempts ->
   forall cerr, (h _ (inlE CtxDone) s).1 = Some cerr ->
     result h p s = Returned (util.mkRetryResult zeroT (Some cerr)) /\
     length (trace h p s) = 2%nat /\
     countb isFnCall (trace h p s) = 0%nat /\
     countb isBackoff (trace h p s) = 0%nat).
Proof.
  cbn zeta. unfold util.Retry. split.
  - intros Hn. replace (Z.to_nat numAttempts) with O by lia. reflexivity.
  - intros Hn cerr Hc.
    destruct (Z.to_nat numAttempts) as [|k] eqn:Hk; [lia|].
    cbn [util.retryLoop bind call]. step_run.
    change (rt CtxDone) with (@inlE rtE (model.fnE T) _ CtxDone).
    rewrite Hc. cbn [bind call]. step_run.
    rewrite !countb_cons, !countb_nil. cbn. repeat split.
Qed.

Lemma Retry_without_attempt_witness :
  let h := model.scriptedH (0, None) in
  let s := ({| model.now := 5; model.cancelAt := Some 3 |}, []) in
  let p := util.Retry 0 "op" (call (inrE model.CallFn)) 3 (100 * Millisecond)
             util.AlwaysRetry in
  (1 <= 3 /\ (h _ (inlE CtxDone) s).1 = Some ContextCanceled) /\
  result h p s = Returned (util.mkRetryResult 0 (Some ContextCanceled)) /\
  length (trace h p s) = 2%nat /\
  countb isFnCall (trace h p s) = 0%nat /\
  countb isBackoff (trace h p s) = 0%nat.
Proof.
  cbn zeta. split; [split; [lia | reflexivity]|].
  apply (Retry_without_attempt 0 (model.scriptedH (0, None)) "op"
           (call (inrE model.CallFn)) 3 (100 * Millisecond) util.AlwaysRetry);
    [lia | reflexivity].
Defined.

Section exhaustion.
Context {T : Type} (zeroT : T) (v : T) (e : error).
Variables (operation : string) (backOff : Duration) (canRetry : error -> bool).
Hypothesis backOff_nonneg : 0 <= backOff.
Hypothesis retriable : canRetry e = true.

(** With a context that never ends and a function that always fails, the
    loop runs all its iterations. *)
Lemma retryLoop_exhausts (rem : nat) : forall (i t0 : Z) (result0 : T) (err0 : option error),
  let s0 : model.Clock * list (T * option error) :=
    ({| model.now := t0; model.cancelAt := None |}, []) in
  let p := util.retryLoop zeroT operation (call (inrE model.CallFn)) backOff canRetry
             rem i result0 err0 in
  result (model.scriptedH (v, Some e)) p s0
    = Returned (match rem with
                | O => util.mkRetryResult result0 err0
                | _ => util.mkRetryResult v (Some e)
                end) /\
  countb isFnCall (trace (model.scriptedH (v, Some e)) p s0) = rem /\
  countb isBackoff (trace (model.scriptedH (v, Some e)) p s0) = rem /\
  model.now (final (model.scriptedH (v, Some e)) p s0).1 = t0 + Z.of_nat rem * backOff.
Proof.
  induction rem as [|rem IH]; intros i t0 result0 err0; cbn zeta.
  - cbn [util.retryLoop]. step_run. cbn. repeat split. lia.
  - cbn [util.retryLoop bind call]. step_run. cbn -[Z.max Z.add Z.mul Z.of_nat countb].
    step_run. cbn -[Z.max Z.add Z.mul Z.of_nat countb].
    rewrite retriable. cbn -[Z.max Z.add Z.mul Z.of_nat countb]. step_run.
    cbn -[Z.max Z.add Z.mul Z.of_nat countb]. step_run.
    cbn -[Z.max Z.add Z.mul Z.of_nat countb].
    specialize (IH (i + 1) (t0 + Z.max 0 backOff) v (Some e)). cbn zeta in IH.
    destruct IH as (IHr & IHc & IHb & IHt).
    unfold model.advance. cbn [model.cancelAt model.now].
    rewrite IHr, IHt. rewrite !countb_cons. rewrite IHc, IHb. cbn -[Z.max Z.add Z.mul Z.of_nat].
    split; [destruct rem; reflexivity|]. split; [reflexivity|]. split; [reflexivity|]. lia.
Qed.

End exhaustion.

(** X7.  With a context that never ends and a function that fails every
    time with an error [canRetry] accepts, [Retry] calls the function exactly
    [numAttempts] times and waits [backOff] after each call, so that it
    returns after [numAttempts * backOff]; the result carries the last error
    together with the value of the last call, not the zero value. *)
Theorem Retry_exhausts_attempts {T : Type} (zeroT v : T) (e : error)
    (operation : string) (numAttempts : Z) (backOff : Duration)
    (canRetry : error -> bool) (t0 : Z) :
  1 <= numAttempts -> 0 <= backOff -> canRetry e = true ->
  let h := model.scriptedH (v, Some e) in
  let s0 : model.Clock * list (T * option error) :=
    ({| model.now := t0; model.cancelAt := None |}, []) in
  let p := util.Retry zeroT operation (call (inrE model.CallFn))
             numAttempts backOff canRetry in
  result h p s0 = Returned (util.mkRetryResult v (Some e)) /\
  countb isFnCall (trace h p s0) = Z.to_nat numAttempts /\
  countb isBackoff (trace h p s0) = Z.to_nat numAttempts /\
  model.now (final h p s0).1 = t0 + numAttempts * backOff.
Proof.
  intros Hn Hb Hc. cbn zeta. unfold util.Retry.
  destruct (retryLoop_exhausts zeroT v e operation backOff canRetry Hb Hc
              (Z.to_nat numAttempts) 1 t0 zeroT None) as (Hr & Hf & Hw & Ht).
  rewrite Hr, Hf, Hw, Ht.
  split; [destruct (Z.to_nat numAttempts) eqn:Hk; [lia | reflexivity]|].
  repeat split. rewrite Z2Nat.id by lia. reflexivity.
Qed.

Lemma Retry_exhausts_attempts_witness :
  let h := model.scriptedH (7, Some (StatusError "conflict")) in
  let s0 : model.Clock * list (Z * option error) :=
    ({| model.now := 0; model.cancelAt := None |}, []) in
  let p := util.Retry 0 "op" (call (inrE model.CallFn)) 3 (100 * Millisecond)
             util.AlwaysRetry in
  (1 <= 3 /\ 0 <= 100 * Millisecond /\
   util.AlwaysRetry (StatusError "conflict") = true) /\
  result h p s0 = Returned (util.mkRetryResult 7 (Some (StatusError "conflict"))) /\
  countb isFnCall (trace h p s0) = Z.to_nat 3 /\
  countb isBackoff (trace h p s0) = Z.to_nat 3 /\
  model.now (final h p s0).1 = 0 + 3 * (100 * Millisecond).
Proof.
  cbn zeta. split; [split; [lia | split; [unfold Millisecond; lia | reflexivity]]|].
  apply (Retry_exhausts_attempts 0 7 (StatusError "conflict") "op" 3
           (100 * Millisecond) util.AlwaysRetry 0);
    [lia | unfold Millisecond; lia | reflexivity].
Defined.

(** X8.  For every handler of the context, the sleeps and the function:
    [RetryOnError] sleeps exactly once after each failed call of the function
    and calls it at most once per turn of its loop; it never panics; when it
    returns, the last thing it did was either the call of the function that
    succeeded, or the log that follows a poll that found the context done. *)
Theorem RetryOnError_stops_on_success_or_done {S St : Type}
    (h : Handler (sumE rtE (model.fnE unit)) S) (fuel : nat) (operation : string)
    (interval : Duration) (st : St) (s : S) :
  let p := util.RetryOnError fuel operation model.opaqueRetriable interval st in
  let tr := trace h p s in
  countb isBackoff tr = countb (isRetriableFailure util.AlwaysRetry) tr /\
  (countb isFnCall tr <= fuel)%nat /\
  match result h p s with
  | Returned st' =>
      st' = st /\
      exists c, last tr = Some c /\
        ((exists u, fnAnswer c = Some (u, None)) \/
         (fnAnswer c = None /\ is_Some (lastCtxAnswer tr)))
  | OutOfFuel => countb (isRetriableFailure util.AlwaysRetry) tr = fuel
  | Panicked _ => False
  end.
Proof.
  revert st s. induction fuel as [|fuel IH]; intros st s; cbn zeta.
  - cbn. repeat split. lia.
  - cbn [util.RetryOnError bind call model.opaqueRetriable]. step_run.
    destruct (h _ (rt CtxDone) s) as [[cerr|] s1]; cbn [fst snd bind call].
    + step_run. rewrite !countb_cons, !countb_nil. cbn.
      split; [reflexivity|]. split; [lia|]. split; [reflexivity|].
      eexists. split; [reflexivity|]. right. split; [reflexivity|]. eauto.
    + step_run.
      destruct (h _ (inrE model.CallFn) s1) as [[u [e|]] s2]; cbn [fst snd bind call].
      * step_run.
        specialize (IH st (h _ (rt (TimeSleep interval))
                             (h _ (rt (LogError e
                                "Error encountered during retry. Will re-attempt if possible."))
                                s2).2).2).
        cbn zeta in IH. destruct IH as (IHb & IHc & IHr).
        rewrite !countb_cons. unfold isRetriableFailure at 1 2 3 4. cbn.
        split; [lia|]. split; [lia|].
        destruct (result h _ _) as [st'| |]; [| exact IHr | lia].
        destruct IHr as (-> & c & Hlast & Hc). split; [reflexivity|].
        exists c. split.
        { rewrite !last_cons, Hlast. reflexivity. }
        destruct Hc as [Hc | [Hc Hctx]]; [left; exact Hc|].
        right. split; [exact Hc|].
        rewrite !lastCtxAnswer_cons. destruct Hctx as [x ->]. eauto.
      * step_run. rewrite !countb_cons, !countb_nil.
        unfold isRetriableFailure. cbn.
        split; [reflexivity|]. split; [lia|]. split; [reflexivity|].
        eexists. split; [reflexivity|]. left. destruct u. eexists. reflexivity.
Qed.

(** ** util.RetryUntilPredicate *)

Section retryUntilProps.
Context {S : Type} (h : Handler (sumE rtE (sumE timerE model.predE)) S).
Variables (operation : string) (interval : Duration) (timer : Timer).

Let predicateFn : Prog (sumE rtE (sumE timerE model.predE)) bool := call (inrE (inrE model.CallPredicate)).

Lemma lastPoll_cons (c : Call (sumE rtE (sumE timerE model.predE))) tr :
  lastPoll (c :: tr) =
  match lastPoll tr with Some a => Some a | None => pollAnswer c end.
Proof.
  unfold lastPoll. simpl. destruct (pollAnswer c) as [a|].
  - rewrite last_cons. reflexivity.
  - destruct (last _); reflexivity.
Qed.

Lemma retryUntilPredicateLoop_spec (fuel : nat) : forall (s : S),
  let p := util.retryUntilPredicateLoop fuel operation predicateFn interval timer in
  let tr := trace h p s in
  countb isNewTimer tr = 0%nat /\
  countb isPredCall tr = countb tookDefault tr /\
  countb isSleep tr = countb (predSaid false) tr /\
  (countb (predSaid true) tr <= 1)%nat /\
  match result h p s with
  | Returned true =>
      countb (predSaid true) tr = 1%nat /\
      exists c, last tr = Some c /\ predAnswer c = Some true
  | Returned false =>
      countb (predSaid true) tr = 0%nat /\
      (lastPoll tr = Some PollDone \/ lastPoll tr = Some PollTimer)
  | OutOfFuel =>
      countb (predSaid true) tr = 0%nat /\ countb tookDefault tr = fuel
  | Panicked _ => False
  end.
Proof.
  induction fuel as [|fuel IH]; intros s; cbn zeta.
  - cbn. repeat split; lia.
  - cbn [util.retryUntilPredicateLoop bind call]. unfold predicateFn.
    cbn [bind call]. step_run.
    destruct (h _ (tm (PollDoneOrTimer timer)) s) as [[| |] s1]; cbn [fst snd bind call].
    + step_run. rewrite !countb_cons, !countb_nil. cbn. repeat split; try lia. left; reflexivity.
    + step_run. rewrite !countb_cons, !countb_nil. cbn. repeat split; try lia. right; reflexivity.
    + step_run.
      destruct (h _ (inrE (inrE model.CallPredicate)) s1) as [[|] s2]; cbn [fst snd bind call].
      * step_run. rewrite !countb_cons, !countb_nil. cbn. repeat split; try lia.
        eexists. split; reflexivity.
      * step_run.
        specialize (IH (h _ (rt (TimeSleep interval)) s2).2). cbn zeta in IH.
        fold predicateFn.
        destruct IH as (IHn & IHp & IHs & IHt & IHr).
        rewrite !countb_cons. cbn -[countb].
        split; [lia|]. split; [lia|]. split; [lia|]. split; [lia|].
        destruct (result h _ _) as [[|]| |].
        -- destruct IHr as (Hc & c & Hlast & Hc'). split; [lia|]. exists c. split; [|exact Hc'].
           rewrite !last_cons, Hlast. reflexivity.
        -- destruct IHr as (Hc & Hl). split; [lia|].
           rewrite !lastPoll_cons. destruct Hl as [-> | ->]; [left|right]; reflexivity.
        -- exact IHr.
        -- destruct IHr. split; lia.
Qed.

End retryUntilProps.

(** X9.  For every handler of the context, the timer, the sleeps and the
    predicate: [RetryUntilPredicate] creates one timer, with the timeout it
    was given, before anything else; it calls the predicate only after a poll
    that found neither the context done nor the timer expired, once per such
    poll; it sleeps once after each call of the predicate that said false; it
    never panics.  It returns true only right after the predicate said true,
    which ends the loop, and false only after a poll that found the context
    done or the timer expired, the predicate never having said true. *)
Theorem RetryUntilPredicate_polls_then_asks {S : Type} (h : Handler (sumE rtE (sumE timerE model.predE)) S) (fuel : nat)
    (operation : string) (timeout interval : Duration) (s : S) :
  let p := util.RetryUntilPredicate fuel operation
             (call (inrE (inrE model.CallPredicate))) timeout interval in
  let tr := trace h p s in
  (exists t, head tr = Some (mkCall (tm (NewTimer timeout)) t)) /\
  countb isNewTimer tr = 1%nat /\
  countb isPredCall tr = countb tookDefault tr /\
  countb isSleep tr = countb (predSaid false) tr /\
  match result h p s with
  | Returned true =>
      countb (predSaid true) tr = 1%nat /\
      exists c, last tr = Some c /\ predAnswer c = Some true
  | Returned false =>
      countb (predSaid true) tr = 0%nat /\
      (lastPoll tr = Some PollDone \/ lastPoll tr = Some PollTimer)
  | OutOfFuel =>
      countb (predSaid true) tr = 0%nat /\ countb tookDefault tr = fuel
  | Panicked _ => False
  end.
Proof.
  cbn zeta. unfold util.RetryUntilPredicate. cbn [bind call]. step_run.
  destruct (h _ (tm (NewTimer timeout)) s) as [t s1] eqn:Hh. cbn [fst snd].
  pose proof (retryUntilPredicateLoop_spec h operation interval t fuel s1) as H.
  cbn zeta in H. destruct H as (Hn & Hp & Hs & Ht & Hr).
  split; [exists t; reflexivity|].
  rewrite !countb_cons. cbn -[countb].
  split; [lia|]. split; [lia|]. split; [lia|].
  destruct (result h _ s1) as [[|]| |].
  - destruct Hr as (Hc & c & Hlast & Hc'). split; [lia|]. exists c. split; [|exact Hc'].
    rewrite last_cons, Hlast. reflexivity.
  - destruct Hr as (Hc & Hl). split; [lia|].
    rewrite lastPoll_cons. destruct Hl as [-> | ->]; [left|right]; reflexivity.
  - exact Hr.
  - destruct Hr. split; lia.
Qed.

(** ** doScale and scale *)

(** X10.  For every handler of the API server: [doScale] sends at most one
    update of the scale subresource.  When it sends none, it returns an error
    and no scale.  The update it sends goes to the scaler's namespace and
    carries the scale that the Get answered with, its spec replicas replaced
    by the replicas of the record; [doScale] then returns what the update
    answered, a scale or an error, never both.  It never panics. *)
Theorem doScale_sends_target_replicas {S : Type} (h : Handler (sumE rtE k8sE) S)
    (namespace : string) (r : prober.scaleableResourceInfo) (s : S) :
  let p := prober.doScale namespace r in
  let tr := trace h p s in
  match omap updateSent tr, omap updateAnswered tr with
  | [], [] => exists e, result h p s = Returned (None, Some e)
  | [(ns, gr, sc)], [a] =>
      ns = namespace /\
      autoscalingv1.SpecReplicas sc = prober.replicas r /\
      (exists got, omap scaleGot tr = [got] /\
                   autoscalingv1.ScaleName sc = autoscalingv1.ScaleName got /\
                   autoscalingv1.StatusReplicas sc = autoscalingv1.StatusReplicas got) /\
      result h p s = Returned (match a with
                               | inl updated => (Some updated, None)
                               | inr e => (None, Some e)
                               end)
  | _, _ => False
  end.
Proof.
  cbn zeta. unfold prober.doScale, prober.getGroupResource.
  cbn [bind call]. step_run.
  match goal with |- context [h ?X ?e s] => destruct (h X e s) as [[m|e1] s1] end;
    cbn [fst snd bind call].
  - step_run.
    match goal with |- context [h ?X ?e s1] => destruct (h X e s1) as [[got|e2] s2] end;
      cbn [fst snd bind call].
    + step_run.
      match goal with |- context [h ?X ?e s2] => destruct (h X e s2) as [[u|e3] s3] end;
        cbn [fst snd bind call]; step_run; cbn;
        (split; [reflexivity|]; split; [reflexivity|]; split; [|reflexivity]);
        exists got; repeat split.
    + step_run. cbn. eauto.
  - step_run. cbn. eauto.
Qed.

Lemma doScale_returns {S : Type} (h : Handler (sumE rtE k8sE) S)
    (namespace : string) (r : prober.scaleableResourceInfo) (s : S) :
  (countb isScaleWrite (trace h (prober.doScale namespace r) s) <= 1)%nat /\
  match result h (prober.doScale namespace r) s with
  | Returned _ => True
  | Panicked _ => False
  | OutOfFuel => False
  end.
Proof.
  unfold prober.doScale, prober.getGroupResource.
  cbn [bind call]. step_run.
  match goal with |- context [h ?X ?e s] => destruct (h X e s) as [[m|e1] s1] end;
    cbn [fst snd bind call].
  - step_run.
    match goal with |- context [h ?X ?e s1] => destruct (h X e s1) as [[got|e2] s2] end;
      cbn [fst snd bind call].
    + step_run.
      match goal with |- context [h ?X ?e s2] => destruct (h X e s2) as [[u|e3] s3] end;
        cbn [fst snd bind call]; step_run; rewrite !countb_cons, countb_nil; cbn;
        (split; [lia | exact I]).
    + step_run. rewrite !countb_cons, countb_nil. cbn. split; [lia | exact I].
  - step_run. rewrite !countb_cons, countb_nil. cbn. split; [lia | exact I].
Qed.

Section retryBounded.
Context {E : Type -> Type} `{!HasRt E} {T S : Type} (zeroT : T) (h : Handler E S).
Variables (fn : Prog E (T * option error)) (q : Call E -> bool) (n : nat).
Variable panics : string -> Prop.
Hypothesis q_rt : forall X (e : rtE X) (x : X), q (mkCall (rt e) x) = false.
Hypothesis fn_ends : forall s,
  (countb q (trace h fn s) <= n)%nat /\
  match result h fn s with
  | Returned _ => True
  | Panicked msg => panics msg
  | OutOfFuel => False
  end.

(** When every run of the function ends and makes at most [n] calls of
    some kind, none of them on the context, the clock or the logger, the loop
    of [Retry] ends too, panicking only as the function does, and makes at
    most [n] such calls per iteration. *)
Lemma retryLoop_bounded (operation : string) (backOff : Duration) (canRetry : error -> bool)
    (rem : nat) : forall (i : Z) (r0 : T) (e0 : option error) (s : S),
  let p := util.retryLoop zeroT operation fn backOff canRetry rem i r0 e0 in
  (countb q (trace h p s) <= rem * n)%nat /\
  match result h p s with
  | Returned _ => True
  | Panicked msg => panics msg
  | OutOfFuel => False
  end.
Proof.
  induction rem as [|rem IH]; intros i r0 e0 s; cbn zeta.
  - cbn [util.retryLoop]. step_run. rewrite countb_nil. split; [lia | exact I].
  - cbn [util.retryLoop bind call]. step_run. rewrite countb_cons, q_rt.
    destruct (h _ (rt CtxDone) s) as [[cerr|] s1]; cbn [fst snd bind call].
    + step_run. rewrite countb_cons, q_rt, countb_nil. split; [lia | exact I].
    + destruct (fn_ends s1) as [Hn Hres].
      destruct (result h fn s1) as [a|msg|] eqn:Ha; [| | contradiction].
      2:{ match goal with
          | |- context [result h (bind ?p ?f) s1] =>
              destruct (bind_panicked h p f s1 _ Ha) as [-> ->]
          end. split; [lia | exact Hres]. }
      rewrite (result_bind_returned _ _ _ _ _ Ha), (trace_bind_returned _ _ _ _ _ Ha).
      rewrite countb_app.
      destruct a as [v [e|]]; cbn [fst snd].
      * destruct (canRetry e); cbn [negb bind call].
        -- step_run. rewrite countb_cons, q_rt.
           destruct (h _ (rt (AfterOrDone backOff)) (final h fn s1)) as [[cerr|] s3];
             cbn [fst snd bind call].
           ++ step_run. rewrite countb_cons, q_rt, countb_nil. split; [lia | exact I].
           ++ step_run. rewrite countb_cons, q_rt.
              destruct (IH (i + 1) v (Some e)
                          (h _ (rt (LogInfo 4 "will attempt to retry operation")) s3).2)
                as [Hc Hr].
              split; [lia | exact Hr].
        -- step_run. rewrite countb_cons, q_rt, countb_nil. split; [lia | exact I].
      * step_run. rewrite countb_nil. split; [lia | exact I].
Qed.

End retryBounded.

Section scaleResult.
Context {S : Type} (h : Handler (sumE rtE k8sE) S).
Variables (namespace : string) (mm : prober.mismatchReplicasCheckFn).

(** The loop of [shouldScale] returns and writes nothing. *)
Lemma waitOnLoop_returns (waitOn : list prober.scaleableResourceInfo) : forall s : S,
  (exists b, result h (prober.waitOnLoop namespace mm waitOn) s = Returned b) /\
  countb isScaleWrite (trace h (prober.waitOnLoop namespace mm waitOn) s) = 0%nat.
Proof.
  induction waitOn as [|u waitOn IH]; intros s.
  - cbn. eauto.
  - cbn [prober.waitOnLoop GetDeploymentFor bind call]. step_run.
    match goal with |- context [h ?X ?e s] => destruct (h X e s) as [[d|e1] s1] end;
      cbn [fst snd bind call].
    + destruct (mm _ _).
      * cbn [bind call]. step_run. rewrite !countb_cons, countb_nil. cbn. eauto.
      * rewrite countb_cons. cbn [isScaleWrite Nat.add]. apply IH.
    + step_run. rewrite !countb_cons, countb_nil. cbn. eauto.
Qed.

End scaleResult.

(** What [scale] returns, and how many updates it sends at most. *)
Lemma scale_spec {S : Type} (h : Handler (sumE rtE k8sE) S)
    (namespace : string) (r : prober.scaleableResourceInfo)
    (mm : prober.mismatchReplicasCheckFn)
    (waitOn : list prober.scaleableResourceInfo) (s : S) :
  let p := prober.scale namespace r mm waitOn in
  let fetched :=
    h _ (k8s (ClientGetDeployment namespace (autoscalingv1.Name (prober.ref r)))) s in
  let waited := h _ (rt (AfterOrDone (prober.initialDelay r))) fetched.2 in
  result h p s =
    match fetched.1 with
    | inr err => Returned (Some err)
    | inl deployment =>
        match waited.1 with
        | Some err => Returned (Some err)
        | None =>
            if prober.isIgnoreScalingAnnotationSet deployment then Returned None
            else match appsv1.SpecReplicas deployment with
                 | None => Panicked prober.nilDeref
                 | Some _ => Returned None
                 end
        end
    end /\
  (countb isScaleWrite (trace h p s) <= 3)%nat.
Proof.
  cbn zeta. unfold prober.scale, GetDeploymentFor, SleepWithContext.
  cbn [bind call]. step_run.
  destruct (h _ (k8s (ClientGetDeployment namespace (autoscalingv1.Name (prober.ref r)))) s)
    as [[d|e1] s1]; cbn [fst snd bind call].
  - step_run.
    destruct (h _ (rt (AfterOrDone (prober.initialDelay r))) s1) as [[e2|] s2];
      cbn [fst snd bind call].
    + step_run. rewrite !countb_cons, countb_nil. cbn. split; [reflexivity | lia].
    + unfold prober.shouldScale.
      destruct (prober.isIgnoreScalingAnnotationSet d).
      * cbn [bind call]. step_run. rewrite !countb_cons, countb_nil. cbn.
        split; [reflexivity | lia].
      * destruct (appsv1.SpecReplicas d) as [n|].
        -- destruct (mm n (prober.replicas r)); cbn [negb].
           ++ destruct (waitOnLoop_returns h namespace mm waitOn s2) as [[b Hb] Hw].
              rewrite (result_bind_returned _ _ _ _ _ Hb), (trace_bind_returned _ _ _ _ _ Hb).
              rewrite !countb_cons, countb_app, Hw.
              cbn [isScaleWrite Nat.add k8s rt HasK8s_sumr HasRt_suml].
              destruct b.
              ** set (s3 := final h (prober.waitOnLoop namespace mm waitOn) s2).
                 assert (Hq : forall X (e : rtE X) (x : X),
                            isScaleWrite (mkCall (rt e) x) = false) by reflexivity.
                 destruct (retryLoop_bounded (@None autoscalingv1.Scale) h
                             (prober.doScale namespace r) isScaleWrite 1
                             (fun _ => False) Hq
                             (doScale_returns h namespace r)
                             EmptyString prober.defaultScaleResourceBackoff
                             util.AlwaysRetry 3 1 None None s3) as [Hc Hrr].
                 destruct (result h (util.retryLoop _ _ _ _ _ _ _ _ _) s3)
                   as [rr| |] eqn:Hrr'; [| contradiction | contradiction].
                 rename Hrr' into Hrr0. clear Hrr. rename Hrr0 into Hrr.
                 unfold util.Retry.
                 change (Z.to_nat prober.defaultMaxResourceScalingAttempts) with 3%nat.
                 rewrite (result_bind_returned _ _ _ _ _ Hrr),
                         (trace_bind_returned _ _ _ _ _ Hrr).
                 step_run. rewrite app_nil_r. split; [reflexivity | lia].
              ** step_run. rewrite countb_nil. split; [reflexivity | lia].
           ++ cbn [bind call]. step_run. rewrite !countb_cons, countb_nil. cbn.
              split; [reflexivity | lia].
        -- cbn [bind]. rewrite !countb_cons. cbn. split; [reflexivity | lia].
  - step_run. rewrite !countb_cons, countb_nil. cbn. split; [reflexivity | lia].
Qed.

(** X11.  For every handler of the context and the API server: what [scale]
    returns is decided by the fetch of the workload, the initial wait, the
    ignore-scaling annotation and whether the workload's spec replicas are
    set, and by nothing else.  An error of the fetch or of the wait is
    returned; otherwise [scale] returns nil, whatever the workloads it waits
    on look like and whatever the updates of the scale answer (their errors
    are dropped after the attempts), except that it panics on a workload
    without spec replicas that is not annotated.  It sends at most three
    updates of the scale. *)
Theorem scale_result_ignores_update_errors {S : Type} (h : Handler (sumE rtE k8sE) S)
    (namespace : string) (r : prober.scaleableResourceInfo)
    (mm : prober.mismatchReplicasCheckFn)
    (waitOn : list prober.scaleableResourceInfo) (s : S) :
  let p := prober.scale namespace r mm waitOn in
  let fetched :=
    h _ (k8s (ClientGetDeployment namespace (autoscalingv1.Name (prober.ref r)))) s in
  let waited := h _ (rt (AfterOrDone (prober.initialDelay r))) fetched.2 in
  result h p s =
    match fetched.1 with
    | inr err => Returned (Some err)
    | inl deployment =>
        match waited.1 with
        | Some err => Returned (Some err)
        | None =>
            if prober.isIgnoreScalingAnnotationSet deployment then Returned None
            else match appsv1.SpecReplicas deployment with
                 | None => Panicked prober.nilDeref
                 | Some _ => Returned None
                 end
        end
    end /\
  (countb isScaleWrite (trace h p s) <= 3)%nat.
Proof. apply scale_spec. Qed.

(** ** The scale action in the model cluster *)

(** In the model cluster the loop of [shouldScale] answers whether every
    workload of the wait-on set is there with status replicas that do not
    mismatch its target, and leaves the cluster as it is. *)
Lemma waitOnLoop_decides (namespace : string) (mm : prober.mismatchReplicasCheckFn)
    (waitOn : list prober.scaleableResourceInfo) (cl : model.Cluster) :
  result model.clusterH (prober.waitOnLoop namespace mm waitOn) cl
    = Returned (forallb (upstreamReady cl namespace mm) waitOn) /\
  final model.clusterH (prober.waitOnLoop namespace mm waitOn) cl = cl.
Proof.
  induction waitOn as [|u waitOn IH].
  - split; reflexivity.
  - cbn [prober.waitOnLoop GetDeploymentFor bind call forallb]. step_run.
    change (k8s (ClientGetDeployment ?a ?b)) with (@inrE rtE k8sE _ (ClientGetDeployment a b)).
    unfold upstreamReady at 1.
    destruct (model.deployments cl !! (namespace, autoscalingv1.Name (prober.ref u)))
      as [d|] eqn:Hl.
    + rewrite (cluster_fetch cl _ _ d Hl). cbn [fst snd].
      destruct (mm (appsv1.StatusReplicas d) (prober.replicas u)); cbn [negb andb].
      * cbn [bind call]. step_run. split; [reflexivity|].
        apply (cluster_log cl _ (LogInfo _ _)). exact I.
      * exact IH.
    + rewrite (cluster_fetch_absent cl _ _ Hl). cbn [fst snd bind call]. step_run.
      split; [reflexivity|]. apply (cluster_log cl _ (LogError _ _)). exact I.
Qed.

(** X12.  In the model cluster [shouldScale] answers false for a workload
    with the ignore-scaling annotation, whatever else holds; otherwise it
    dereferences the spec replicas (a nil pointer panics) and answers true
    exactly when they mismatch the target and every workload of the wait-on
    set is there with status replicas that do not mismatch its own target.
    It reads and logs only: the cluster is left as it was. *)
Theorem shouldScale_decides (namespace : string) (deployment : appsv1.Deployment)
    (targetReplicas : Z) (mm : prober.mismatchReplicasCheckFn)
    (waitOn : list prober.scaleableResourceInfo) (cl : model.Cluster) :
  let p := prober.shouldScale namespace deployment targetReplicas mm waitOn in
  result model.clusterH p cl =
    (if prober.isIgnoreScalingAnnotationSet deployment then Returned false
     else match appsv1.SpecReplicas deployment with
          | None => Panicked prober.nilDeref
          | Some n =>
              Returned (mm n targetReplicas && forallb (upstreamReady cl namespace mm) waitOn)
          end) /\
  final model.clusterH p cl = cl.
Proof.
  cbn zeta. unfold prober.shouldScale.
  destruct (prober.isIgnoreScalingAnnotationSet deployment).
  - cbn [bind call]. step_run. split; [reflexivity|].
    apply (cluster_log cl _ (LogInfo _ _)). exact I.
  - destruct (appsv1.SpecReplicas deployment) as [n|]; [|split; reflexivity].
    destruct (mm n targetReplicas); cbn [negb andb].
    + apply waitOnLoop_decides.
    + cbn [bind call]. step_run. split; [reflexivity|].
      apply (cluster_log cl _ (LogInfo _ _)). exact I.
Qed.

Lemma cluster_wait (cl : model.Cluster) (d : Duration) :
  model.ctxErrAt (model.clock cl) (model.now (model.clock cl) + Z.max 0 d) = None ->
  model.clusterH _ (inlE (AfterOrDone d)) cl
    = (None, model.withClock cl
               (model.advance (model.clock cl) (model.now (model.clock cl) + Z.max 0 d))).
Proof.
  intros H. unfold model.clusterH, sumH, model.clusterRtH, model.rtH.
  cbn -[Z.max Z.add]. rewrite H. reflexivity.
Qed.

(** In the model cluster, with the context not done, the first attempt of
    the retried [doScale] succeeds for a workload of kind Deployment stored
    under its name: one update, which stores the target. *)
Lemma retried_doScale_succeeds (namespace : string) (r : prober.scaleableResourceInfo)
    (cl : model.Cluster) (d : appsv1.Deployment) :
  let p := util.Retry None EmptyString (prober.doScale namespace r)
             prober.defaultMaxResourceScalingAttempts
             prober.defaultScaleResourceBackoff util.AlwaysRetry in
  let key := (namespace, autoscalingv1.Name (prober.ref r)) in
  autoscalingv1.Kind (prober.ref r) = "Deployment" ->
  model.deployments cl !! key = Some d ->
  appsv1.Name d = autoscalingv1.Name (prober.ref r) ->
  model.ctxErrAt (model.clock cl) (model.now (model.clock cl)) = None ->
  (exists rr, result model.clusterH p cl = Returned rr) /\
  countb isScaleWrite (trace model.clusterH p cl) = 1%nat /\
  final model.clusterH p cl
    = model.withDeployments cl
        (<[key := model.setSpecReplicas d (prober.replicas r)]> (model.deployments cl)).
Proof.
  cbn zeta. intros Hkind Hl Hname Hctx. destruct cl as [c ds]. cbn [model.deployments model.clock] in Hl, Hctx.
  unfold util.Retry.
  change (Z.to_nat prober.defaultMaxResourceScalingAttempts) with 3%nat.
  cbn [util.retryLoop bind call]. step_run.
  change (rt CtxDone) with (@inlE rtE k8sE _ CtxDone).
  change (model.clusterH _ (inlE CtxDone) {| model.clock := c; model.deployments := ds |})
    with (model.ctxErrAt c (model.now c), {| model.clock := c; model.deployments := ds |}).
  rewrite Hctx. cbn [fst snd].
  unfold prober.doScale, prober.getGroupResource. cbn [bind call]. step_run.
  match goal with
  | |- context [model.clusterH ?X (k8s (RESTMapping ?gk ?v)) ?st] =>
      assert (Hmap : model.clusterH X (k8s (RESTMapping gk v)) st
                     = (inl {| schema.gvrGroup := schema.gkGroup gk;
                               schema.gvrVersion := v;
                               schema.gvrResource := "deployments" |}, st))
        by (cbn -[String.eqb lookup insert]; rewrite Hkind; reflexivity);
      rewrite Hmap; clear Hmap
  end.
  cbn [fst snd bind call]. step_run.
  match goal with
  | |- context [model.clusterH ?X (k8s (ScalesGet ?ns ?gr ?nm)) ?st] =>
      assert (Hget : model.clusterH X (k8s (ScalesGet ns gr nm)) st
                     = (inl (model.scaleOf d), st))
        by (cbn -[String.eqb lookup insert]; rewrite Hl; reflexivity);
      rewrite Hget; clear Hget
  end.
  cbn [fst snd bind call]. step_run.
  cbn [model.scaleOf autoscalingv1.ScaleName autoscalingv1.StatusReplicas].
  rewrite Hname.
  match goal with
  | |- context [model.clusterH ?X (k8s (ScalesUpdate ?ns ?gr ?sc)) ?st] =>
      assert (Hupd : model.clusterH X (k8s (ScalesUpdate ns gr sc)) st
                     = (inl sc,
                        model.withDeployments st
                          (<[(ns, autoscalingv1.Name (prober.ref r)) :=
                               model.setSpecReplicas d (prober.replicas r)]> ds)))
        by (cbn -[String.eqb lookup insert]; rewrite Hl; reflexivity);
      rewrite Hupd; clear Hupd
  end.
  cbn [fst snd bind call]. step_run.
  rewrite !countb_cons, countb_nil. cbn -[lookup insert].
  split; [eauto|]. split; reflexivity.
Qed.

(** X13.  In the model cluster, take a record of kind Deployment whose
    workload is stored under its name, is not annotated, and has spec
    replicas that mismatch the record's target; let every workload of the
    wait-on set be ready and the context not be done by the end of the
    initial delay.  Then [scale] returns nil after one update of the scale;
    the workload's spec replicas are the target, every other field and
    every other workload is as it was, and the clock has advanced by the
    initial delay only. *)
Theorem scale_sets_spec_replicas (namespace : string) (r : prober.scaleableResourceInfo)
    (mm : prober.mismatchReplicasCheckFn)
    (waitOn : list prober.scaleableResourceInfo) (cl : model.Cluster)
    (d : appsv1.Deployment) (n : Z) :
  let p := prober.scale namespace r mm waitOn in
  let key := (namespace, autoscalingv1.Name (prober.ref r)) in
  let deadline := model.now (model.clock cl) + Z.max 0 (prober.initialDelay r) in
  autoscalingv1.Kind (prober.ref r) = "Deployment" ->
  model.deployments cl !! key = Some d ->
  appsv1.Name d = autoscalingv1.Name (prober.ref r) ->
  prober.isIgnoreScalingAnnotationSet d = false ->
  appsv1.SpecReplicas d = Some n ->
  mm n (prober.replicas r) = true ->
  forallb (upstreamReady cl namespace mm) waitOn = true ->
  model.ctxErrAt (model.clock cl) deadline = None ->
  result model.clusterH p cl = Returned None /\
  countb isScaleWrite (trace model.clusterH p cl) = 1%nat /\
  model.deployments (final model.clusterH p cl)
    = <[key := model.setSpecReplicas d (prober.replicas r)]> (model.deployments cl) /\
  model.now (model.clock (final model.clusterH p cl)) = deadline.
Proof.
  cbn zeta. intros Hkind Hl Hname Hann Hspec Hmm Hready Hctx.
  unfold prober.scale, GetDeploymentFor, SleepWithContext.
  cbn [bind call]. step_run.
  change (k8s (ClientGetDeployment ?a ?b)) with (@inrE rtE k8sE _ (ClientGetDeployment a b)).
  rewrite (cluster_fetch cl _ _ d Hl). cbn [fst snd bind call]. step_run.
  change (rt (AfterOrDone ?a)) with (@inlE rtE k8sE _ (AfterOrDone a)).
  rewrite (cluster_wait cl _ Hctx). cbn [fst snd].
  set (cl1 := model.withClock cl _).
  unfold prober.shouldScale. rewrite Hann, Hspec, Hmm. cbn [negb].
  destruct (waitOnLoop_decides namespace mm waitOn cl1) as [Hres Hfin].
  assert (Hup : forallb (upstreamReady cl1 namespace mm) waitOn = true) by exact Hready.
  rewrite Hup in Hres.
  rewrite (result_bind_returned _ _ _ _ _ Hres), (trace_bind_returned _ _ _ _ _ Hres),
          (final_bind_returned _ _ _ _ _ Hres), Hfin.
  assert (Hctx1 : model.ctxErrAt (model.clock cl1) (model.now (model.clock cl1)) = None).
  { unfold cl1. cbn -[Z.max Z.add Z.leb]. unfold model.ctxErrAt in *.
    cbn -[Z.max Z.add Z.leb]. exact Hctx. }
  destruct (retried_doScale_succeeds namespace r cl1 d Hkind Hl Hname Hctx1)
    as ((rr & Hrr) & Hw & Hf).
  rewrite (result_bind_returned _ _ _ _ _ Hrr), (trace_bind_returned _ _ _ _ _ Hrr),
          (final_bind_returned _ _ _ _ _ Hrr).
  step_run. rewrite app_nil_r, Hf.
  destruct (waitOnLoop_returns model.clusterH namespace mm waitOn cl1) as [_ Hw0].
  rewrite !countb_cons, countb_app, Hw0, Hw.
  split; [reflexivity|]. split; [reflexivity|]. split; reflexivity.
Qed.

Lemma scale_sets_spec_replicas_witness :
  let cl := model.clusterOf
              [model.deployment "machine-controller-manager" ∅ 0 0;
               model.deployment "kube-controller-manager" ∅ 0 0;
               model.deployment "cluster-autoscaler" ∅ 1 1] in
  let p := prober.scale "default" model.ca ScaleDownReplicasMismatch
             [model.mcm; model.kcm] in
  forallb (upstreamReady cl "default" ScaleDownReplicasMismatch) [model.mcm; model.kcm]
    = true /\
  result model.clusterH p cl = Returned None /\
  countb isScaleWrite (trace model.clusterH p cl) = 1%nat /\
  model.deployments (final model.clusterH p cl)
    = <[("default", "cluster-autoscaler") :=
          model.deployment "cluster-autoscaler" ∅ 0 1]> (model.deployments cl) /\
  model.now (model.clock (final model.clusterH p cl))
    = 0 + Z.max 0 (prober.initialDelay model.ca).
Proof.
  cbn zeta. split; [vm_compute; reflexivity|].
  apply (scale_sets_spec_replicas "default" model.ca ScaleDownReplicasMismatch
           [model.mcm; model.kcm]
           (model.clusterOf
              [model.deployment "machine-controller-manager" ∅ 0 0;
               model.deployment "kube-controller-manager" ∅ 0 0;
               model.deployment "cluster-autoscaler" ∅ 1 1])
           (model.deployment "cluster-autoscaler" ∅ 1 1) 1);
    vm_compute; reflexivity.
Defined.

(** ** The watch held by the pod watcher *)

Lemma heldAfter_cons (c : Call (sumE rtE weederE)) tr (held : option watch.Interface) :
  heldAfter (c :: tr) held
  = heldAfter tr (match createdWatch c with Some w => Some w | None => held end).
Proof.
  unfold heldAfter. simpl. destruct (createdWatch c) as [w|].
  - rewrite last_cons. destruct (last _); reflexivity.
  - reflexivity.
Qed.

Lemma heldAfter_app (tr1 tr2 : list (Call (sumE rtE weederE)))
    (held : option watch.Interface) :
  heldAfter (tr1 ++ tr2) held = heldAfter tr2 (heldAfter tr1 held).
Proof.
  revert held. induction tr1 as [|c tr1 IH]; intros held.
  - reflexivity.
  - cbn [app]. rewrite !heldAfter_cons. apply IH.
Qed.

Section heldWatch.
Context {S : Type} (h : Handler (sumE rtE weederE) S).

(** What a watcher becomes when it holds [held]. *)
Let holding (pw : weeder.podWatcher) (held : option watch.Interface) : weeder.podWatcher :=
  {| weeder.selector := weeder.selector pw;
     weeder.k8sWatch := held;
     weeder.weeder := weeder.weeder pw |}.

(** [createK8sWatch] stops no watch, makes no select and does not panic;
    the watcher it returns differs from the one it was given at most in the
    watch held: the one created, if one was. *)
Lemma createK8sWatch_holds (retryFuel : nat) :
  forall (pw : weeder.podWatcher) (s : S),
  let p := weeder.createK8sWatch retryFuel pw in
  omap stoppedWatch (trace h p s) = [] /\
  countb isSelect (trace h p s) = 0%nat /\
  match result h p s with
  | Returned pw' => pw' = holding pw (heldAfter (trace h p s) (weeder.k8sWatch pw))
  | Panicked _ => False
  | OutOfFuel => True
  end.
Proof.
  unfold weeder.createK8sWatch.
  induction retryFuel as [|n IH]; intros pw s; cbn zeta.
  - repeat split.
  - cbn [util.RetryOnError bind call weeder.doCreateK8sWatch]. step_run.
    destruct (h _ (rt CtxDone) s) as [[cerr|] s1]; cbn [fst snd bind call].
    + step_run. split; [reflexivity|]. split; [reflexivity|]. destruct pw; reflexivity.
    + step_run.
      destruct (h _ (wd (PodsWatch (weeder.namespace (weeder.weeder pw))
                                   (weeder.selector pw))) s1) as [[w|err] s2];
        cbn [fst snd bind call].
      * step_run. split; [reflexivity|]. split; reflexivity.
      * step_run.
        set (s4 := (h _ (rt (TimeSleep weeder.watchCreationRetryInterval)) _).2).
        destruct (IH pw s4) as (IH1 & IH2 & IH3).
        split; [exact IH1|]. split; [exact IH2|].
        rewrite !heldAfter_cons. exact IH3.
Qed.

(** The loop of [watch] stops no watch.  Started with a watch it does not
    panic, and the watcher it returns holds the last watch created, or the
    one it started with. *)
Lemma watchLoop_holds (retryFuel fuel : nat) :
  forall (pw : weeder.podWatcher) (s : S),
  let p := weeder.watchLoop fuel retryFuel pw in
  omap stoppedWatch (trace h p s) = [] /\
  match weeder.k8sWatch pw with
  | None =>
      (0 < fuel)%nat ->
      result h p s = Panicked prober.nilDeref /\ trace h p s = []
  | Some w0 =>
      match result h p s with
      | Returned pw' =>
          pw' = holding pw (heldAfter (trace h p s) (Some w0)) /\
          is_Some (weeder.k8sWatch pw')
      | Panicked _ => False
      | OutOfFuel => True
      end
  end.
Proof.
  induction fuel as [|n IH]; intros pw s; cbn zeta.
  - split; [reflexivity|]. destruct (weeder.k8sWatch pw); [exact I | lia].
  - cbn [weeder.watchLoop]. destruct (weeder.k8sWatch pw) as [w|] eqn:Hw.
    2:{ split; [reflexivity|]. intros _. split; reflexivity. }
    cbn [bind call]. step_run.
    destruct (h _ (wd (SelectDoneOrResult w)) s) as [[| |ev] s1]; cbn [fst snd bind call].
    + step_run. split; [reflexivity|]. split; [|rewrite Hw; eauto].
      destruct pw; cbn in Hw; subst; reflexivity.
    + step_run.
      set (s2 := (h _ (rt (LogInfo 3 "Watch has stopped, recreating kubernetes watch")) s1).2).
      destruct (createK8sWatch_holds retryFuel pw s2) as (Hc1 & _ & Hc3).
      rewrite trace_bind.
      destruct (result h (weeder.createK8sWatch retryFuel pw) s2) as [pw1| |] eqn:Hr;
        [| contradiction |].
      * rewrite (result_bind_returned _ _ _ _ _ Hr).
        set (tr1 := trace h (weeder.createK8sWatch retryFuel pw) s2) in *.
        set (s3 := final h (weeder.createK8sWatch retryFuel pw) s2).
        destruct (IH pw1 s3) as (IH1 & IH2).
        cbn [omap list_omap stoppedWatch wd rt HasWeeder_sumr HasRt_suml].
        change (list_omap ?A ?B ?f ?l) with (omap f l).
        rewrite omap_app, Hc1, IH1. split; [reflexivity|].
        rewrite Hw in Hc3.
        assert (Hheld : exists w1, heldAfter tr1 (Some w) = Some w1).
        { unfold heldAfter. destruct (last _); eauto. }
        destruct Hheld as [w1 Hw1]. rewrite Hw1 in Hc3.
        assert (Hk : weeder.k8sWatch pw1 = Some w1) by (rewrite Hc3; reflexivity).
        rewrite Hk in IH2.
        destruct (result h (weeder.watchLoop n retryFuel pw1) s3) as [pw2| |];
          [| contradiction | exact I].
        destruct IH2 as [-> Hsome]. split; [|exact Hsome].
        rewrite !heldAfter_cons, heldAfter_app.
        cbn [createdWatch wd rt HasWeeder_sumr HasRt_suml]. rewrite Hw1, Hc3. reflexivity.
      * match goal with
        | |- context [result h (bind ?p ?f) s2] =>
            destruct (bind_out_of_fuel h p f s2 Hr) as [-> _]
        end.
        cbn [omap list_omap stoppedWatch wd rt HasWeeder_sumr HasRt_suml].
        change (list_omap ?A ?B ?f ?l) with (omap f l).
        rewrite app_nil_r, Hc1. split; [reflexivity | exact I].
    + specialize (IH pw). rewrite Hw in IH.
      destruct (weeder.canProcessEvent ev) eqn:Hc; cbn [negb].
      * destruct (watch.Object_ ev) as [pod|kind] eqn:Ho.
        -- cbn [bind call]. step_run.
           set (nn := {| nnNamespace := watch.Namespace pod; nnName := watch.Name pod |}).
           destruct (h _ (wd (EventHandlerFn nn)) s1) as [[err|] s2];
             cbn [fst snd bind call]; step_run;
             cbn [omap list_omap stoppedWatch wd rt HasWeeder_sumr HasRt_suml];
             change (list_omap ?A ?B ?f ?l) with (omap f l);
             rewrite !heldAfter_cons;
             cbn [createdWatch wd rt HasWeeder_sumr HasRt_suml];
             apply IH.
        -- apply canProcessEvent_iff in Hc. destruct Hc as [_ [pod Hp]]. congruence.
      * cbn [omap list_omap stoppedWatch wd rt HasWeeder_sumr HasRt_suml].
        change (list_omap ?A ?B ?f ?l) with (omap f l).
        rewrite !heldAfter_cons. cbn [createdWatch wd rt HasWeeder_sumr HasRt_suml].
        apply IH.
Qed.

End heldWatch.

(** X14.  For every handler of the watcher's calls: when [watch] returns,
    it has stopped exactly one watch, as its last call: the last watch that
    was created (or the one the watcher held from the start, if no creation
    succeeded); watches replaced on the way are not stopped.  [watch] panics
    exactly in one way: it holds no watch when it first reaches its select,
    because the creation ended, the context being done, before any watch was
    created; it has then made no select and stopped nothing. *)
Theorem watch_stops_the_watch_it_holds {S : Type} (h : Handler (sumE rtE weederE) S)
    (fuel retryFuel : nat) (pw : weeder.podWatcher) (s : S) :
  let p := weeder.watch fuel retryFuel pw in
  let tr := trace h p s in
  match result h p s with
  | Returned _ =>
      exists w, heldAfter tr (weeder.k8sWatch pw) = Some w /\
                omap stoppedWatch tr = [w] /\
                exists c, last tr = Some c /\ stoppedWatch c = Some w
  | Panicked msg =>
      msg = prober.nilDeref /\
      heldAfter tr (weeder.k8sWatch pw) = None /\
      omap stoppedWatch tr = [] /\
      countb isSelect tr = 0%nat
  | OutOfFuel => omap stoppedWatch tr = []
  end.
Proof.
  cbn zeta. unfold weeder.watch.
  destruct (createK8sWatch_holds h retryFuel pw s) as (Hc1 & Hc2 & Hc3).
  set (tr1 := trace h (weeder.createK8sWatch retryFuel pw) s) in *.
  set (s1 := final h (weeder.createK8sWatch retryFuel pw) s).
  destruct (result h (weeder.createK8sWatch retryFuel pw) s) as [pw1| |] eqn:Hr;
    [| contradiction |].
  2:{ match goal with
      | |- context [result h (bind ?p ?f) s] =>
          destruct (bind_out_of_fuel h p f s Hr) as [-> ->]
      end. exact Hc1. }
  rewrite (result_bind_returned _ _ _ _ _ Hr), (trace_bind_returned _ _ _ _ _ Hr).
  fold tr1 s1.
  destruct (watchLoop_holds h retryFuel fuel pw1 s1) as (Hl1 & Hl2).
  set (tr2 := trace h (weeder.watchLoop fuel retryFuel pw1) s1) in *.
  set (s2 := final h (weeder.watchLoop fuel retryFuel pw1) s1).
  assert (Hk : weeder.k8sWatch pw1 = heldAfter tr1 (weeder.k8sWatch pw))
    by (rewrite Hc3; reflexivity).
  destruct (heldAfter tr1 (weeder.k8sWatch pw)) as [w1|] eqn:Hheld1.
  - rewrite Hk in Hl2.
    destruct (result h (weeder.watchLoop fuel retryFuel pw1) s1) as [pw2| |] eqn:Hr2;
      [| contradiction |].
    + rewrite (result_bind_returned _ _ _ _ _ Hr2), (trace_bind_returned _ _ _ _ _ Hr2).
      fold tr2 s2. destruct Hl2 as [Hpw2 [w2 Hw2]].
      assert (Hh2 : heldAfter tr2 (Some w1) = Some w2).
      { rewrite Hpw2 in Hw2. exact Hw2. }
      unfold weeder.close. rewrite Hw2. unfold call. step_run.
      exists w2. split.
      { rewrite !heldAfter_app, Hheld1, Hh2. reflexivity. }
      split.
      { rewrite !omap_app, Hc1, Hl1. reflexivity. }
      eexists. split.
      { rewrite !last_app. cbn [last]. reflexivity. }
      reflexivity.
    + match goal with
      | |- context [result h (bind ?p ?f) s1] =>
          destruct (bind_out_of_fuel h p f s1 Hr2) as [-> ->]
      end.
      rewrite omap_app, Hc1. exact Hl1.
  - rewrite Hk in Hl2.
    destruct fuel as [|fuel'].
    + cbn [weeder.watchLoop bind]. cbn. rewrite !omap_app, Hc1. reflexivity.
    + destruct (Hl2 ltac:(lia)) as [Hp Ht].
      match goal with
      | |- context [result h (bind ?p ?f) s1] =>
          destruct (bind_panicked h p f s1 _ Hp) as [-> ->]
      end.
      fold tr2. rewrite Ht, app_nil_r.
      split; [reflexivity|]. split; [exact Hheld1|]. split; [exact Hc1 | exact Hc2].
Qed.

(** A run of the panic: the context is done before the watcher starts. *)
Example watch_started_with_context_done :
  let w0 :=
    {| model.wclock := {| model.now := 0; model.cancelAt := Some 0 |};
       model.creations := [inl 1];
       model.inbox := [];
       model.handled := [] |} in
  let pw := {| weeder.selector := "app=kube-apiserver"; weeder.k8sWatch := None;
               weeder.weeder := {| weeder.namespace := "shoot--dev--a";
                                   weeder.endpointsName := "etcd-main" |} |} in
  result model.watchH (weeder.watch 10 10 pw) w0 = Panicked prober.nilDeref /\
  countb isPodsWatch (trace model.watchH (weeder.watch 10 10 pw) w0) = 0%nat.
Proof. cbn zeta. split; vm_compute; reflexivity. Qed.

(** ** The task function of a record *)

(** X15.  For every handler of the context and the API server: the task
    function built for a record does not loop for ever; unless [scale]
    panics (on a workload without spec replicas), it returns, and its last
    call is then the log that the resource has been scaled, whether the
    scaling succeeded, was skipped or failed at every attempt.  All its
    attempts together send at most nine updates of the scale. *)
Theorem scaleTaskFn_reports_scaled {S : Type} (h : Handler (sumE rtE k8sE) S)
    (defaultGetSecretBackoff : Duration) (c : prober.scaleClosure) (s : S) :
  let p := prober.scaleTaskFn defaultGetSecretBackoff c in
  let tr := trace h p s in
  (countb isScaleWrite tr <= 9)%nat /\
  match result h p s with
  | Returned _ =>
      exists u, last tr = Some (mkCall (rt (LogInfo 4 "resource has been scaled")) u)
  | Panicked msg => msg = prober.nilDeref
  | OutOfFuel => False
  end.
Proof.
  cbn zeta. unfold prober.scaleTaskFn, util.Retry.
  change (Z.to_nat prober.defaultMaxResourceScalingAttempts) with 3%nat.
  set (sc := prober.scale _ _ _ _).
  set (fn := bind sc (fun err => Ret (tt, err))).
  assert (Hq : forall X (e : rtE X) (x : X),
             isScaleWrite (mkCall (rt e) x) = false) by reflexivity.
  assert (Hfn : forall s0,
             (countb isScaleWrite (trace h fn s0) <= 3)%nat /\
             match result h fn s0 with
             | Returned _ => True
             | Panicked msg => msg = prober.nilDeref
             | OutOfFuel => False
             end).
  { intros s0. unfold fn, sc.
    destruct (scale_spec h (prober.clNamespace c) (prober.clResourceInfo c)
                (prober.clMismatchReplicasCheckFn c) (prober.clWaitOnResourceInfos c) s0)
      as [Hres Hw].
    fold sc in Hres, Hw |- *.
    destruct (result h sc s0) as [e|msg|] eqn:Hr.
    - rewrite (result_bind_returned _ _ _ _ _ Hr), (trace_bind_returned _ _ _ _ _ Hr).
      step_run. rewrite app_nil_r. split; [exact Hw | exact I].
    - match goal with
      | |- context [result h (bind ?p ?f) s0] =>
          destruct (bind_panicked h p f s0 _ Hr) as [-> ->]
      end.
      split; [exact Hw|].
      repeat match type of Hres with
             | _ = match ?x with _ => _ end => destruct x; try discriminate Hres
             | _ = if ?x then _ else _ => destruct x; try discriminate Hres
             end.
      congruence.
    - exfalso.
      repeat match type of Hres with
             | _ = match ?x with _ => _ end => destruct x; try discriminate Hres
             | _ = if ?x then _ else _ => destruct x; try discriminate Hres
             end. }
  destruct (retryLoop_bounded tt h fn isScaleWrite 3 (fun msg => msg = prober.nilDeref)
              Hq Hfn
              ("scale-resource-" +:+ prober.clNamespace c +:+ "."
               +:+ autoscalingv1.Name (prober.ref (prober.clResourceInfo c)))
              defaultGetSecretBackoff util.AlwaysRetry 3 1 tt None s) as [Hc Hr].
  match goal with
  | |- context [result h (bind ?p ?f) s] => set (loop := p) in *
  end.
  destruct (result h loop s) as [rr|msg|] eqn:Hres; [| | contradiction].
  - rewrite (result_bind_returned _ _ _ _ _ Hres), (trace_bind_returned _ _ _ _ _ Hres).
    cbn [bind call]. step_run. rewrite countb_app, countb_cons, countb_nil.
    cbn [isScaleWrite rt HasRt_suml]. split; [lia|].
    eexists. rewrite last_snoc. reflexivity.
  - match goal with
    | |- context [result h (bind ?p ?f) s] =>
        destruct (bind_panicked h p f s _ Hres) as [-> ->]
    end.
    split; [lia | exact Hr].
Qed.

(** ** The validator's checks *)

(** X16.  Every check of the validator either answers true and leaves the
    collected errors as they were, or answers false and appends exactly one
    error to them, the earlier errors being kept in order; the answer is
    thus false exactly when an error was added.  [MustNotBeEmpty],
    [MustNotBeNil], [IfPresentMustBeGreaterThan] and
    [ResourceRefMustBeValid] never panic, a nil pointer passing
    [IfPresentMustBeGreaterThan]; [MustBeGreaterThan] obeys the same rule on
    any non-nil pointer and panics on nil. *)
Theorem validator_check_adds_one_error_or_none {E : Type -> Type} {S : Type}
    (h : Handler E S) (TrimSpace : string -> string) (v : prober.validator)
    (key : string) (value : prober.ifaceValue) (ptr : option prober.intPtr)
    (lowerLimit : Z) (resourceRef : autoscalingv1.CrossVersionObjectReference) (s : S) :
  let checked (p : Prog E (bool * prober.validator)) :=
    exists ok v', result h p s = Returned (ok, v') /\
      if ok then v' = v
      else exists e, prober.verror v' = prober.verror v ++ [e] in
  checked (prober.MustNotBeEmpty TrimSpace v key value) /\
  checked (prober.MustNotBeNil v key value) /\
  checked (prober.IfPresentMustBeGreaterThan v key ptr lowerLimit) /\
  checked (prober.ResourceRefMustBeValid v resourceRef) /\
  result h (prober.IfPresentMustBeGreaterThan v key None lowerLimit) s = Returned (true, v) /\
  match ptr with
  | Some _ => checked (prober.MustBeGreaterThan v key ptr lowerLimit)
  | None =>
      result h (prober.MustBeGreaterThan v key ptr lowerLimit) s
        = Panicked prober.nilDeref
  end.
Proof.
  cbn zeta. repeat split.
  - unfold prober.MustNotBeEmpty.
    destruct value as [|str|len|].
    + eexists false, _. split; [reflexivity|]. eexists. reflexivity.
    + destruct (String.eqb (TrimSpace str) EmptyString).
      * eexists false, _. split; [reflexivity|]. eexists. reflexivity.
      * eexists true, _. split; reflexivity.
    + destruct (len =? 0)%nat.
      * eexists false, _. split; [reflexivity|]. eexists. reflexivity.
      * eexists true, _. split; reflexivity.
    + eexists true, _. split; reflexivity.
  - unfold prober.MustNotBeNil.
    destruct value; try (eexists true, _; split; reflexivity).
    eexists false, _. split; [reflexivity|]. eexists. reflexivity.
  - unfold prober.IfPresentMustBeGreaterThan, prober.MustBeGreaterThan.
    destruct ptr as [p|]; [|eexists true, _; split; reflexivity].
    destruct (prober.pointee p <? lowerLimit).
    + eexists false, _. split; [reflexivity|]. eexists. reflexivity.
    + eexists true, _. split; reflexivity.
  - unfold prober.ResourceRefMustBeValid.
    destruct (schema.ParseGroupVersion _).2.
    + eexists false, _. split; [reflexivity|]. eexists. reflexivity.
    + eexists true, _. split; reflexivity.
  - destruct ptr as [p|]; [|reflexivity].
    unfold prober.MustBeGreaterThan.
    destruct (prober.pointee p <? lowerLimit).
    + eexists false, _. split; [reflexivity|]. eexists. reflexivity.
    + eexists true, _. split; reflexivity.
Qed.
